(** * SmartDebugAssistant: the error-analysis handler of [backend/main.py]

    A shallow embedding of the request handler [analyze_error] and of the
    functions it calls, with the properties of the catalog matching, of the
    two context heuristics, of the history store and of the fallback paths.

    Conventions of the embedding.
    - Text is [string], read as ASCII text: the character classes of the
      regular expressions ([\w], [\d], [\s]) are the ASCII ones.
    - A Python exception is the [None] of an [option]; the HTTP failure of
      the handler is the [inl] of a sum.
    - The generative-AI service, the JSON decoder and the field validation
      of the response models are external: they are parameters. *)

From Stdlib Require Import Ascii String QArith DecimalString.
From stdpp Require Import base option list gmap strings.

#[local] Set Warnings "-register-all".

Local Open Scope string_scope.
Local Open Scope nat_scope.

(** ** Text *)

Module Text.

Definition nat_between (lo hi n : nat) : bool :=
  Nat.leb lo n && Nat.leb n hi.

Definition is_digit (a : ascii) : bool :=
  nat_between 48 57 (nat_of_ascii a).

Definition is_alpha (a : ascii) : bool :=
  let n := nat_of_ascii a in nat_between 65 90 n || nat_between 97 122 n.

(** [\w]: letters, digits and the underscore. *)
Definition is_word (a : ascii) : bool :=
  is_alpha a || is_digit a || Nat.eqb (nat_of_ascii a) 95.

(** [\s] and [str.strip]: tab, line feed, vertical tab, form feed,
    carriage return, the four separators 28..31 and the space. *)
Definition is_space (a : ascii) : bool :=
  let n := nat_of_ascii a in nat_between 9 13 n || nat_between 28 32 n.

Definition newline : ascii := ascii_of_nat 10.
Definition nl : string := String newline EmptyString.
Definition dq : string := String (ascii_of_nat 34) EmptyString.

Fixpoint str_take (n : nat) (s : string) : string :=
  match n, s with
  | S n', String a s' => String a (str_take n' s')
  | _, _ => EmptyString
  end.

Fixpoint str_drop (n : nat) (s : string) : string :=
  match n, s with
  | S n', String _ s' => str_drop n' s'
  | _, _ => s
  end.

(** [strip_prefix p s] is what follows [p] in [s] when [s] starts with [p]. *)
Fixpoint strip_prefix (p s : string) : option string :=
  match p, s with
  | EmptyString, _ => Some s
  | String a p', String b s' =>
      if Ascii.eqb a b then strip_prefix p' s' else None
  | String _ _, EmptyString => None
  end.

Definition starts_with (p s : string) : bool :=
  match strip_prefix p s with Some _ => true | None => false end.

(** [sub in s] *)
Fixpoint str_contains (sub s : string) : bool :=
  starts_with sub s ||
  match s with
  | EmptyString => false
  | String _ s' => str_contains sub s'
  end.

Fixpoint last_char (d : option ascii) (s : string) : option ascii :=
  match s with
  | EmptyString => d
  | String a s' => last_char (Some a) s'
  end.

(** [s.split(sep)] for a non-empty separator: [cur] is the piece being
    read, [skip] counts the characters of a separator still to pass. *)
Fixpoint split_go (sep cur s : string) (skip : nat) : list string :=
  match s with
  | EmptyString => [cur]
  | String a s' =>
      match skip with
      | S k => split_go sep cur s' k
      | O =>
          if starts_with sep s
          then cur :: split_go sep EmptyString s' (String.length sep - 1)
          else split_go sep (cur ++ String a EmptyString) s' 0
      end
  end.

Definition str_split (sep s : string) : list string :=
  split_go sep EmptyString s 0.

Fixpoint lstrip (s : string) : string :=
  match s with
  | String a s' => if is_space a then lstrip s' else s
  | EmptyString => EmptyString
  end.

Fixpoint rstrip (s : string) : string :=
  match s with
  | EmptyString => EmptyString
  | String a s' =>
      match rstrip s' with
      | EmptyString => if is_space a then EmptyString else String a EmptyString
      | r => String a r
      end
  end.

(** [s.strip()] *)
Definition str_strip (s : string) : string := rstrip (lstrip s).

(** [sep.join(l)] *)
Fixpoint str_join (sep : string) (l : list string) : string :=
  match l with
  | [] => EmptyString
  | [x] => x
  | x :: l' => x ++ sep ++ str_join sep l'
  end.

(** [str(n)] for a non-negative integer. *)
Definition str_of_nat (n : nat) : string :=
  NilZero.string_of_uint (Nat.to_uint n).

(** [int(s)] for a string of decimal digits: its value in base 10. The
    limit that recent interpreters put on the number of digits of such a
    conversion is not modelled. *)
Fixpoint int_go (acc : nat) (s : string) : nat :=
  match s with
  | EmptyString => acc
  | String a s' => int_go (10 * acc + (nat_of_ascii a - 48)) s'
  end.

Definition int_of_digits (s : string) : nat := int_go 0 s.

(** The number of positions at which the zipped strings differ:
    [sum(1 for a, b in zip(v, u) if a != b)]. *)
Fixpoint zip_differences (v u : string) : nat :=
  match v, u with
  | String a v', String b u' =>
      (if Ascii.eqb a b then 0 else 1) + zip_differences v' u'
  | _, _ => 0
  end.

(** [abs(len(v) - len(u))] *)
Definition len_distance (v u : string) : nat :=
  (String.length v - String.length u) + (String.length u - String.length v).

(** The number of occurrences of a character. *)
Fixpoint count_char (c : ascii) (s : string) : nat :=
  match s with
  | EmptyString => 0
  | String a s' => (if Ascii.eqb c a then 1 else 0) + count_char c s'
  end.

End Text.

(** ** Regular expressions

    The patterns of the program are sequences of literals, repeated
    character classes, alternations of literals and word boundaries; the
    matcher is the backtracking one of Python's [re], which tries the
    choices of each item in priority order. *)

Module Re.
Import Text.

Inductive cclass := CWord | CDigit | CSpace | CDot.

Definition in_class (c : cclass) (a : ascii) : bool :=
  match c with
  | CWord => is_word a
  | CDigit => is_digit a
  | CSpace => is_space a
  | CDot => negb (Ascii.eqb a newline)
  end.

Inductive atom :=
| Lit (s : string)
| Rep (c : cclass) (least : nat) (greedy : bool)
| Alt (alts : list string)
| Bound.

(** An item is an atom, inside a capturing group ([G]) or not ([N]). *)
Inductive item := G (a : atom) | N (a : atom).

Definition atom_of (i : item) : atom :=
  match i with G a | N a => a end.

Definition captures (i : item) : bool :=
  match i with G _ => true | N _ => false end.

Definition regex := list item.

(** [\w+], [\d+], [\s*] and the lazy [.*?] *)
Definition word_plus : atom := Rep CWord 1 true.
Definition digit_plus : atom := Rep CDigit 1 true.
Definition space_star : atom := Rep CSpace 0 true.
Definition any_lazy : atom := Rep CDot 0 false.

(** Length of the longest prefix of [s] made of characters of [c]. *)
Fixpoint run (c : cclass) (s : string) : nat :=
  match s with
  | String a s' => if in_class c a then S (run c s') else 0
  | EmptyString => 0
  end.

(** The lengths a repetition may take, in the order they are tried. *)
Definition candidates (least most : nat) (greedy : bool) : list nat :=
  let up := seq least (S most - least) in
  if greedy then rev up else up.

Fixpoint first_some {A B : Type} (f : A -> option B) (l : list A) : option B :=
  match l with
  | [] => None
  | x :: l' => match f x with Some y => Some y | None => first_some f l' end
  end.

Definition word_before (prev : option ascii) : bool :=
  match prev with Some a => is_word a | None => false end.

Definition word_after (s : string) : bool :=
  match s with String a _ => is_word a | EmptyString => false end.

(** [\b]: exactly one side of the position is a word character. *)
Definition at_boundary (prev : option ascii) (s : string) : bool :=
  xorb (word_before prev) (word_after s).

(** [match_here r prev s]: match [r] at the start of [s], [prev] being the
    character before it; the captured groups and the text left over. *)
Fixpoint match_here (r : regex) (prev : option ascii) (s : string)
  : option (list string * string) :=
  match r with
  | [] => Some ([], s)
  | i :: r' =>
      let continue (w rest : string) :=
        match match_here r' (last_char prev w) rest with
        | Some (gs, after) => Some (if captures i then w :: gs else gs, after)
        | None => None
        end in
      match atom_of i with
      | Lit l =>
          match strip_prefix l s with
          | Some rest => continue l rest
          | None => None
          end
      | Rep c least greedy =>
          first_some (fun n => continue (str_take n s) (str_drop n s))
                     (candidates least (run c s) greedy)
      | Alt alts =>
          first_some (fun a => match strip_prefix a s with
                               | Some rest => continue a rest
                               | None => None
                               end) alts
      | Bound => if at_boundary prev s then continue EmptyString s else None
      end
  end.

(** [re.search(r, s)]: the groups of the leftmost match. *)
Fixpoint search_from (r : regex) (prev : option ascii) (s : string)
  : option (list string) :=
  match match_here r prev s with
  | Some (gs, _) => Some gs
  | None =>
      match s with
      | EmptyString => None
      | String a s' => search_from r (Some a) s'
      end
  end.

Definition search (r : regex) (s : string) : option (list string) :=
  search_from r None s.

(** [re.findall(r, s)]: the groups of the successive matches, left to
    right and without overlap; [skip] counts the characters of the last
    match still to pass. *)
Fixpoint findall_from (r : regex) (prev : option ascii) (s : string)
  (skip : nat) : list (list string) :=
  match s with
  | EmptyString =>
      match skip, match_here r prev s with
      | O, Some (gs, _) => [gs]
      | _, _ => []
      end
  | String a s' =>
      match skip with
      | S k => findall_from r (Some a) s' k
      | O =>
          match match_here r prev s with
          | Some (gs, after) =>
              gs :: findall_from r (Some a) s'
                      (String.length s - String.length after - 1)
          | None => findall_from r (Some a) s' 0
          end
      end
  end.

Definition findall (r : regex) (s : string) : list (list string) :=
  findall_from r None s 0.

(** No item of the pattern is a [\b]. *)
Definition no_bound (r : regex) : bool :=
  forallb (fun i => match atom_of i with Bound => false | _ => true end) r.

End Re.

Import Text Re.

(** ** Data model *)

(** A decoded JSON value, as [json.loads] returns it. *)
Inductive json :=
| JNull
| JBool (b : bool)
| JNum (q : Q)
| JStr (s : string)
| JArr (items : list json)
| JObj (fields : list (string * json)).

Record ErrorInput := {
  error_message : string;
  code_context : option string;
  language : string;
  project_id : option string
}.

Record Solution := {
  fix_ : string;
  explanation : string;
  confidence : Q;
  code_example : string
}.

Record LearningResource := {
  title : string;
  description : string;
  url : option string;
  resource_type : string
}.

(** [common_contexts] and [related_errors] are assigned after the model is
    built, so they hold whatever the decoded reply has under those keys. *)
Record ErrorStatistics := {
  frequency : option nat;
  common_contexts : option json;
  related_errors : option json;
  last_occurrence : option string
}.

Record ErrorResponse := {
  error_type : string;
  solutions : list Solution;
  concepts : list string;
  learning_resources : option (list LearningResource);
  statistics : option ErrorStatistics
}.

(** One entry of a list of [ERROR_HISTORY]. *)
Record HistoryRecord := {
  timestamp : string;
  rec_error_message : string;
  rec_code_context : option string
}.

(** [ERROR_HISTORY]: project identifier, then error type, then the records
    in the order they were appended. *)
Abbreviation History := (gmap string (gmap string (list HistoryRecord))).

Record HTTPException := {
  status_code : nat;
  detail : string
}.

(** Truth value of an optional string: [None] and [""] are false. *)
Definition truthy (s : option string) : bool :=
  match s with
  | Some (String _ _) => true
  | _ => false
  end.

(** ** The pattern catalog *)

Record PatternEntry := {
  pat_pattern : regex;
  pat_solutions : list Solution;
  pat_concepts : list string
}.

Definition NameError_example : string :=
  "
# Wrong
print(undefined_variable)

# Correct
undefined_variable = 'some value'
print(undefined_variable)
".

Definition TypeError_example : string :=
  "
# Wrong
result = " ++ dq ++ "123" ++ dq ++ " + 456

# Correct
result = int(" ++ dq ++ "123" ++ dq ++ ") + 456  # If you want a number
# OR
result = " ++ dq ++ "123" ++ dq ++ " + str(456)  # If you want a string
".

Definition IndexError_example : string :=
  "
# Wrong
my_list = [1, 2, 3]
print(my_list[3])  # Index 3 doesn't exist

# Correct
my_list = [1, 2, 3]
if len(my_list) > 3:
    print(my_list[3])
else:
    print(" ++ dq ++ "Index out of range" ++ dq ++ ")
".

Definition KeyError_example : string :=
  "
# Wrong
my_dict = {'a': 1, 'b': 2}
print(my_dict['c'])

# Correct
my_dict = {'a': 1, 'b': 2}
if 'c' in my_dict:
    print(my_dict['c'])
else:
    print(" ++ dq ++ "Key doesn't exist" ++ dq ++ ")
    
# Alternative using .get()
print(my_dict.get('c', 'Key doesn't exist'))
".

Definition SyntaxError_example : string :=
  "
# Common syntax errors:

# 1. Missing closing parenthesis
print(" ++ dq ++ "Hello" ++ dq ++ "

# 2. Missing colons after if/for/while statements
if x > 5
    print(x)

# 3. Incorrect indentation
if x > 5:
print(x)
".

Definition IndentationError_example : string :=
  "
# Wrong
if x > 5:
print(" ++ dq ++ "x is greater than 5" ++ dq ++ ")  # Missing indentation

# Correct
if x > 5:
    print(" ++ dq ++ "x is greater than 5" ++ dq ++ ")  # Properly indented
".

Definition ImportError_example : string :=
  "
# Error
import non_existent_module

# Fix: Install the module
# pip install module_name

# Or check if you misspelled the module name
import os  # instead of 'Os' or 'OS'
".

Definition AttributeError_example : string :=
  "
# Wrong
x = 5
x.append(10)  # integers don't have an append method

# Correct
# Check the object type first
x = 5
if hasattr(x, 'append'):
    x.append(10)
else:
    print(" ++ dq ++ "This object doesn't have an append method" ++ dq ++ ")
".

Definition ZeroDivisionError_example : string :=
  "
# Wrong
x = 10 / 0

# Correct
denominator = 0
if denominator != 0:
    result = 10 / denominator
else:
    result = " ++ dq ++ "Cannot divide by zero" ++ dq ++ "
".

Definition ValueError_example : string :=
  "
# Wrong
int(" ++ dq ++ "abc" ++ dq ++ ")

# Correct
user_input = " ++ dq ++ "abc" ++ dq ++ "
try:
    number = int(user_input)
except ValueError:
    print(" ++ dq ++ "Input must be a valid integer" ++ dq ++ ")
    number = 0  # default value
".

(** [ERROR_PATTERNS], in the order of its declaration, which is the order
    in which a dict is iterated. *)
Definition ERROR_PATTERNS : list (string * PatternEntry) := [
  ("NameError",
   {| pat_pattern :=
        [N (Lit "name '"); G word_plus; N (Lit "' is not defined")];
      pat_solutions := [
        {| fix_ := "Define the variable before using it";
           explanation := "This error occurs when you try to use a variable that hasn't been defined yet.";
           confidence := 0.9;
           code_example := NameError_example |}];
      pat_concepts := ["variable scope"; "variable declaration"] |});
  ("TypeError",
   {| pat_pattern :=
        [N (Lit "unsupported operand type(s) for ");
         G (Alt ["+"; "-"; "*"; "/"]); N (Lit ": '"); G word_plus;
         N (Lit "' and '"); G word_plus; N (Lit "'")];
      pat_solutions := [
        {| fix_ := "Convert variables to compatible types before operation";
           explanation := "This error occurs when you try to perform operations on incompatible types.";
           confidence := 0.85;
           code_example := TypeError_example |}];
      pat_concepts := ["type conversion"; "operators"] |});
  ("IndexError",
   {| pat_pattern := [N (Lit "list index out of range")];
      pat_solutions := [
        {| fix_ := "Check that the index is within the bounds of the list";
           explanation := "This error occurs when you try to access an index that doesn't exist in the list.";
           confidence := 0.95;
           code_example := IndexError_example |}];
      pat_concepts := ["lists"; "indexing"; "bounds checking"] |});
  ("KeyError",
   {| pat_pattern := [N (Lit "KeyError: '"); G word_plus; N (Lit "'")];
      pat_solutions := [
        {| fix_ := "Check if the key exists before accessing it";
           explanation := "This error occurs when you try to access a dictionary with a key that doesn't exist.";
           confidence := 0.9;
           code_example := KeyError_example |}];
      pat_concepts := ["dictionaries"; "key validation"; "default values"] |});
  ("SyntaxError",
   {| pat_pattern := [N (Lit "SyntaxError: invalid syntax")];
      pat_solutions := [
        {| fix_ := "Check your code for syntax errors";
           explanation := "This generic syntax error occurs when Python can't parse your code.";
           confidence := 0.7;
           code_example := SyntaxError_example |}];
      pat_concepts := ["syntax"; "code structure"; "indentation"] |});
  ("IndentationError",
   {| pat_pattern :=
        [N (Lit "IndentationError: ");
         G (Alt ["unexpected indent"; "expected an indented block"])];
      pat_solutions := [
        {| fix_ := "Fix your code's indentation";
           explanation := "This error occurs when your code has inconsistent indentation.";
           confidence := 0.9;
           code_example := IndentationError_example |}];
      pat_concepts := ["indentation"; "code blocks"; "Python syntax"] |});
  ("ImportError",
   {| pat_pattern :=
        [N (Lit "ImportError: No module named '"); G word_plus; N (Lit "'")];
      pat_solutions := [
        {| fix_ := "Install the missing module or check the import statement";
           explanation := "This error occurs when Python can't find the module you're trying to import.";
           confidence := 0.85;
           code_example := ImportError_example |}];
      pat_concepts := ["imports"; "modules"; "package management"] |});
  ("AttributeError",
   {| pat_pattern :=
        [N (Lit "AttributeError: '"); G word_plus;
         N (Lit "' object has no attribute '"); G word_plus; N (Lit "'")];
      pat_solutions := [
        {| fix_ := "Check if the object has the attribute you're trying to access";
           explanation := "This error occurs when you try to access an attribute or method that doesn't exist for that object.";
           confidence := 0.85;
           code_example := AttributeError_example |}];
      pat_concepts := ["object attributes"; "methods"; "type checking"] |});
  ("ZeroDivisionError",
   {| pat_pattern := [N (Lit "ZeroDivisionError: division by zero")];
      pat_solutions := [
        {| fix_ := "Check for zero before dividing";
           explanation := "This error occurs when you try to divide by zero.";
           confidence := 0.95;
           code_example := ZeroDivisionError_example |}];
      pat_concepts := ["division"; "error checking"; "defensive programming"] |});
  ("ValueError",
   {| pat_pattern :=
        [N (Lit "ValueError: invalid literal for int() with base 10: '");
         G word_plus; N (Lit "'")];
      pat_solutions := [
        {| fix_ := "Ensure the string can be converted to an integer";
           explanation := "This error occurs when you try to convert a string to an integer, but the string doesn't represent a valid integer.";
           confidence := 0.9;
           code_example := ValueError_example |}];
      pat_concepts := ["type conversion"; "input validation"; "exception handling"] |})
].

(** ** Context heuristics *)

(** The dict [context_analysis] of [analyze_code_context]. *)
Record ContextAnalysis := {
  specific_issue : option string;
  specific_fix : option string
}.

Definition no_analysis : ContextAnalysis :=
  {| specific_issue := None; specific_fix := None |}.

(** The value of the first group of a match. *)
Definition group1 (gs : list string) : string := default "" (head gs).

(** [r'\b(\w+)\b'] *)
Definition variable_pattern : regex := [N Bound; G word_plus; N Bound].

(** [r"name '(\w+)' is not defined"] *)
Definition undefined_var_pattern : regex :=
  [N (Lit "name '"); G word_plus; N (Lit "' is not defined")].

(** [r'(\w+)\s*=\s*\[(.*?)\]'] *)
Definition list_pattern : regex :=
  [G word_plus; N space_star; N (Lit "="); N space_star; N (Lit "[");
   G any_lazy; N (Lit "]")].

(** [rf'{list_name}\[(\d+)\]']: a matched list name is made of word
    characters, none of which is special in a pattern. *)
Definition index_pattern (list_name : string) : regex :=
  [N (Lit list_name); N (Lit "["); G digit_plus; N (Lit "]")].

(** The words of the lines, in the order they are added to the set. *)
Definition added_variables (code_context : string) : list string :=
  concat (map (fun line => map group1 (findall variable_pattern line))
              (str_split nl code_context)).

(** The test of the loop over [all_variables]. *)
Definition is_similar (var undefined_var : string) : bool :=
  negb (String.eqb var undefined_var)
  && Nat.leb (len_distance var undefined_var) 2
  && Nat.leb (zip_differences var undefined_var) 2.

Definition typo_issue (undefined_var : string) : string :=
  "You might have a typo in variable name '" ++ undefined_var ++ "'".

Definition typo_fix (similar_vars : list string) : string :=
  "Did you mean '" ++ default "" (head similar_vars)
  ++ "'? Similar variables found: " ++ str_join ", " similar_vars.

Definition index_issue (index : nat) (list_name : string) : string :=
  "Index " ++ str_of_nat index ++ " is out of range for list '"
  ++ list_name ++ "'".

Definition index_fix (list_name : string) (list_length : nat) : string :=
  "The list '" ++ list_name ++ "' appears to have " ++ str_of_nat list_length
  ++ " items (indices 0-" ++ str_of_nat (list_length - 1) ++ ")".

(** Body of the loop over [index_matches]. *)
Definition index_step (list_name : string) (list_length : nat)
  (ca : ContextAnalysis) (index_str : string) : ContextAnalysis :=
  let index := int_of_digits index_str in
  if Nat.leb list_length index
  then {| specific_issue := Some (index_issue index list_name);
          specific_fix := Some (index_fix list_name list_length) |}
  else ca.

Definition index_matches (list_name code_context : string) : list string :=
  map group1 (findall (index_pattern list_name) code_context).

(** Body of the loop over [list_matches]. *)
Definition list_step (code_context : string) (ca : ContextAnalysis)
  (m : list string) : ContextAnalysis :=
  match m with
  | [list_name; list_content] =>
      let items := str_split "," list_content in
      let list_length := length items in
      fold_left (index_step list_name list_length)
                (index_matches list_name code_context) ca
  | _ => ca
  end.

Section Heuristics.

(** The order in which a set of strings is iterated, given the elements in
    the order they were added: it is not fixed by the language. *)
Variable set_order : list string -> list string.

Definition all_variables (code_context : string) : list string :=
  set_order (added_variables code_context).

Definition similar_to (undefined_var : string) (code_context : string)
  : list string :=
  List.filter (fun var => is_similar var undefined_var)
              (all_variables code_context).

Definition name_analysis (error_message code_context : string)
  : ContextAnalysis :=
  match search undefined_var_pattern error_message with
  | Some gs =>
      let undefined_var := group1 gs in
      let similar_vars := similar_to undefined_var code_context in
      match similar_vars with
      | [] => no_analysis
      | _ :: _ =>
          {| specific_issue := Some (typo_issue undefined_var);
             specific_fix := Some (typo_fix similar_vars) |}
      end
  | None => no_analysis
  end.

Definition index_analysis (code_context : string) : ContextAnalysis :=
  fold_left (list_step code_context) (findall list_pattern code_context)
            no_analysis.

Definition analyze_code_context (error_type error_message : string)
  (code_context : option string) : option ContextAnalysis :=
  match code_context with
  | Some (String _ _ as ctx) =>
      if String.eqb error_type "NameError"
      then Some (name_analysis error_message ctx)
      else if String.eqb error_type "IndexError"
      then Some (index_analysis ctx)
      else Some no_analysis
  | _ => None
  end.

End Heuristics.

(** ** The AI service and the process environment *)

(** What a prompt is built from; the text around these values is fixed. *)
Inductive prompt :=
| ResourcesPrompt (error_type : string) (joined_concepts : string)
| PatternsPrompt (instances : nat) (error_type : string)
    (recent : list HistoryRecord)
| ClassifyPrompt (error_message : string) (code_context : option string).

(** What one request sees of the outside: the environment value holding
    the credential, the text the service replies to a prompt ([None] when
    the call or the reading of its text raises) and the clock. *)
Record World := {
  GEMINI_API_KEY : option string;
  generate_content : prompt -> option string;
  now_isoformat : string
}.

(** [setup_gemini]: raises when the credential is missing or empty; the
    configuration of the client library that follows is taken to
    succeed. *)
Definition setup_gemini (w : World) : option unit :=
  if truthy (GEMINI_API_KEY w) then Some tt else None.

(** The fence stripping applied to every reply before it is decoded. *)
Definition fenced (opening content : string) : option string :=
  inner ← str_split opening content !! 1;
  body ← str_split "```" inner !! 0;
  Some (str_strip body).

Definition extract_json (content : string) : option string :=
  if str_contains "```json" content then fenced "```json" content
  else if str_contains "```" content then fenced "```" content
  else Some content.

(** [d.get(key)] on the fields of an object. *)
Fixpoint dict_get (fields : list (string * json)) (key : string)
  : option json :=
  match fields with
  | [] => None
  | (k, v) :: rest => if String.eqb k key then Some v else dict_get rest key
  end.

(** [analysis.get(key, default)]: only an object has [get]. *)
Definition get_or (analysis : json) (key : string) (dflt : json)
  : option json :=
  match analysis with
  | JObj fields => Some (default dflt (dict_get fields key))
  | _ => None
  end.

Fixpoint chars (s : string) : list json :=
  match s with
  | EmptyString => []
  | String a s' => JStr (String a EmptyString) :: chars s'
  end.

(** [for x in v]: the items of an array, the characters of a string, the
    keys of an object; the other values are not iterable. *)
Definition py_iter (v : json) : option (list json) :=
  match v with
  | JArr items => Some items
  | JStr s => Some (chars s)
  | JObj fields => Some (map (fun kv => JStr (fst kv)) fields)
  | _ => None
  end.

(** [for x in v[:3]]: arrays and strings can be sliced. *)
Definition first_three (v : json) : option (list json) :=
  match v with
  | JArr items => Some (firstn 3 items)
  | JStr s => Some (firstn 3 (chars s))
  | _ => None
  end.

Section Handler.

Variable set_order : list string -> list string.

(** [json.loads]: [None] when the text is not JSON. *)
Variable json_loads : string -> option json.

(** The validation of a [str] and of a [float] field of a response model:
    [None] when the value is refused. *)
Variable str_field : json -> option string.
Variable float_field : json -> option Q.

Definition required (fields : list (string * json)) (key : string)
  : option json := dict_get fields key.

(** [LearningResource] built from the keys of [resource]; a value that
    is not an object cannot be unpacked. *)
Definition LearningResource_of (resource : json) : option LearningResource :=
  match resource with
  | JObj fields =>
      t ← required fields "title" ≫= str_field;
      d ← required fields "description" ≫= str_field;
      u ← match dict_get fields "url" with
          | None | Some JNull => Some None
          | Some v => Some <$> str_field v
          end;
      k ← required fields "resource_type" ≫= str_field;
      Some {| title := t; description := d; url := u; resource_type := k |}
  | _ => None
  end.

(** [Solution] built from the keys of [sol]. *)
Definition Solution_of (sol : json) : option Solution :=
  match sol with
  | JObj fields =>
      f ← required fields "fix" ≫= str_field;
      e ← required fields "explanation" ≫= str_field;
      c ← required fields "confidence" ≫= float_field;
      x ← required fields "code_example" ≫= str_field;
      Some {| fix_ := f; explanation := e; confidence := c;
              code_example := x |}
  | _ => None
  end.

(** The validation of a [List[str]] field. *)
Definition str_list_field (v : json) : option (list string) :=
  match v with
  | JArr items => mapM str_field items
  | _ => None
  end.

(** *** Learning resources *)

(** The [try] block of [get_learning_resources]. *)
Definition requested_resources (w : World) (error_type : string)
  (concepts : list string) : option (list LearningResource) :=
  content ← generate_content w
              (ResourcesPrompt error_type (str_join ", " concepts));
  content ← extract_json content;
  resources ← json_loads content;
  items ← first_three resources;
  mapM LearningResource_of items.

(** The [except] block of [get_learning_resources]. *)
Definition fallback_resources (error_type : string) (concepts : list string)
  : list LearningResource :=
  [ {| title := "Understanding " ++ error_type ++ " in Python";
       description := "Learn how to debug and prevent " ++ error_type
                      ++ " errors";
       url := None;
       resource_type := "article" |};
    {| title := "Common causes of " ++ error_type;
       description := "Explore the most frequent mistakes that lead to "
                      ++ error_type;
       url := None;
       resource_type := "tutorial" |};
    {| title := "Best practices to avoid "
                ++ match concepts with c :: _ => c | [] => "errors" end;
       description := "Preventive techniques for writing more robust code";
       url := None;
       resource_type := "guide" |} ].

Definition get_learning_resources (w : World) (error_type : string)
  (concepts : list string) : list LearningResource :=
  match requested_resources w error_type concepts with
  | Some resources => resources
  | None => fallback_resources error_type concepts
  end.

(** *** History and statistics *)

Definition records_of (h : History) (project error_type : string)
  : list HistoryRecord :=
  default [] (default ∅ (h !! project) !! error_type).

(** The update of [ERROR_HISTORY] at the start of
    [analyze_error_patterns]. *)
Definition record_error (w : World) (h : History)
  (project error_type error_message : string) (code_context : option string)
  : History :=
  let record := {| timestamp := now_isoformat w;
                   rec_error_message := error_message;
                   rec_code_context := code_context |} in
  <[project := <[error_type := (records_of h project error_type ++ [record])%list]>
                 (default ∅ (h !! project))]> h.

(** [l[-2]], which raises on a list of fewer than two records. *)
Definition second_to_last (l : list HistoryRecord) : option HistoryRecord :=
  if Nat.leb 2 (length l) then l !! (length l - 2) else None.

Definition last_five (l : list HistoryRecord) : list HistoryRecord :=
  if Nat.ltb 5 (length l) then skipn (length l - 5) l else l.

(** The [try] block of [analyze_error_patterns]: the two fields read from
    the decoded reply. *)
Definition requested_insights (w : World) (error_type : string)
  (error_history : list HistoryRecord) : option (json * json) :=
  content ← generate_content w
              (PatternsPrompt (length error_history) error_type
                              (last_five error_history));
  content ← extract_json content;
  analysis ← json_loads content;
  cc ← get_or analysis "common_contexts" (JArr []);
  re ← get_or analysis "related_errors" (JArr []);
  Some (cc, re).

Definition analyze_error_patterns (w : World) (h : History)
  (error_type error_message : string) (code_context : option string)
  (project_id : option string) : ErrorStatistics * History :=
  match project_id with
  | Some (String _ _ as project) =>
      let h' := record_error w h project error_type error_message
                             code_context in
      let error_history := records_of h' project error_type in
      let stats :=
        {| frequency := Some (length error_history);
           common_contexts := None;
           related_errors := None;
           last_occurrence :=
             if Nat.ltb 1 (length error_history)
             then timestamp <$> second_to_last error_history
             else None |} in
      if Nat.ltb 1 (length error_history)
      then match requested_insights w error_type error_history with
           | Some (cc, re) =>
               ({| frequency := frequency stats;
                   common_contexts := Some cc;
                   related_errors := Some re;
                   last_occurrence := last_occurrence stats |}, h')
           | None => (stats, h')
           end
      else (stats, h')
  | _ =>
      ({| frequency := None; common_contexts := None;
          related_errors := None; last_occurrence := None |}, h)
  end.

(** *** The augmented response *)

Definition empty_statistics : ErrorStatistics :=
  {| frequency := None; common_contexts := None; related_errors := None;
     last_occurrence := None |}.

Definition analyze_with_gemini (w : World) (h : History)
  (error_input : ErrorInput) (error_type : string)
  (solutions : list Solution) (concepts : list string)
  : ErrorResponse * History :=
  match setup_gemini w with
  | Some _ =>
      let learning_resources :=
        get_learning_resources w error_type concepts in
      let '(statistics, h') :=
        analyze_error_patterns w h error_type (error_message error_input)
          (code_context error_input) (project_id error_input) in
      ({| error_type := error_type;
          solutions := solutions;
          concepts := concepts;
          learning_resources := Some learning_resources;
          statistics := Some statistics |}, h')
  | None =>
      ({| error_type := error_type;
          solutions := solutions;
          concepts := concepts;
          learning_resources :=
            Some [ {| title := "Understanding " ++ error_type;
                      description := "Learn about common " ++ error_type
                                     ++ " issues";
                      url := None;
                      resource_type := "guide" |} ];
          statistics := Some empty_statistics |}, h)
  end.

(** *** The handler *)

(** The loop over [ERROR_PATTERNS.items()]: the first entry whose pattern
    is found in the message. *)
Fixpoint first_match (entries : list (string * PatternEntry))
  (message : string) : option (string * PatternEntry) :=
  match entries with
  | [] => None
  | (error_type, error_info) :: rest =>
      match search (pat_pattern error_info) message with
      | Some _ => Some (error_type, error_info)
      | None => first_match rest message
      end
  end.

(** The solutions of a matched entry, with the solution made from the
    code context in front when the heuristic names an issue. The dict of
    the heuristic is never empty, so its truth value is that of its
    [specific_issue]; an issue always comes with its fix (lemma
    [issue_comes_with_fix]). *)
Definition matched_solutions (error_input : ErrorInput)
  (error_type : string) (error_info : PatternEntry) : list Solution :=
  let solutions := pat_solutions error_info in
  match code_context error_input with
  | Some (String _ _ as ctx) =>
      match analyze_code_context set_order error_type
              (error_message error_input) (code_context error_input) with
      | Some {| specific_issue := Some (String _ _ as issue);
                specific_fix := specific_fix |} =>
          {| fix_ := default "" specific_fix;
             explanation := issue;
             confidence := 0.95;
             code_example := "# Based on your specific code:" ++ nl ++ ctx |}
          :: solutions
      | _ => solutions
      end
  | _ => solutions
  end.

(** What the [try] block of the unmatched path reads from the reply
    before it calls [analyze_with_gemini]. The label and the concepts are
    validated here, as [str] and [List[str]]; the source validates them
    when [ErrorResponse] is built, at the end of [analyze_with_gemini],
    and a refusal there fails the request with the same 404. What that
    run of [analyze_with_gemini] may have appended to the history before
    the refusal is not followed. *)
Definition classification (w : World) (error_input : ErrorInput)
  : option (string * list Solution * list string) :=
  _ ← setup_gemini w;
  content ← generate_content w
              (ClassifyPrompt (error_message error_input)
                 (if truthy (code_context error_input)
                  then code_context error_input else None));
  content ← extract_json content;
  analysis ← json_loads content;
  label ← get_or analysis "error_type" (JStr "Unknown Error");
  error_type ← str_field label;
  sols ← get_or analysis "solutions" (JArr []);
  sols ← py_iter sols;
  solutions ← mapM Solution_of sols;
  topics ← get_or analysis "concepts" (JArr []);
  concepts ← str_list_field topics;
  Some (error_type, solutions, concepts).

Definition not_recognized : HTTPException :=
  {| status_code := 404;
     detail := "Error pattern not recognized and failed to analyze with Gemini" |}.

Definition analyze_error (w : World) (h : History) (error_input : ErrorInput)
  : (HTTPException + ErrorResponse) * History :=
  match first_match ERROR_PATTERNS (error_message error_input) with
  | Some (error_type, error_info) =>
      let solutions := matched_solutions error_input error_type error_info in
      let '(response, h') :=
        analyze_with_gemini w h error_input error_type solutions
                            (pat_concepts error_info) in
      (inr response, h')
  | None =>
      match classification w error_input with
      | Some (error_type, solutions, concepts) =>
          let '(response, h') :=
            analyze_with_gemini w h error_input error_type solutions
                                concepts in
          (inr response, h')
      | None => (inl not_recognized, h)
      end
  end.

End Handler.

(** ** Sample surroundings, used to run the handler on concrete requests *)

(** A set iterated in the order its elements were first added. *)
Definition insertion_order : list string -> list string := remove_dups.

(** A decoder that refuses every text. *)
Definition no_json : string -> option json := fun _ => None.

(** Validation that accepts a string for [str] and a number for [float]. *)
Definition strict_str (v : json) : option string :=
  match v with JStr s => Some s | _ => None end.

Definition strict_float (v : json) : option Q :=
  match v with JNum q => Some q | _ => None end.

(** A configured process whose AI calls all raise. *)
Definition offline (stamp : string) : World :=
  {| GEMINI_API_KEY := Some "secret";
     generate_content := fun _ => None;
     now_isoformat := stamp |}.

(** A process started without the credential. *)
Definition unconfigured : World :=
  {| GEMINI_API_KEY := None;
     generate_content := fun _ => None;
     now_isoformat := "2025-01-01T00:00:00" |}.

Definition request (message : string) (context project : option string)
  : ErrorInput :=
  {| error_message := message; code_context := context;
     language := "python"; project_id := project |}.

(** A configured process whose service answers a classification prompt
    with a fenced text, and raises on the other prompts. *)
Definition classifying (stamp : string) : World :=
  {| GEMINI_API_KEY := Some "secret";
     generate_content := fun p =>
       match p with
       | ClassifyPrompt _ _ =>
           Some ("Here it is:" ++ nl ++ "```json" ++ nl ++ "{classified}"
                 ++ nl ++ "```")
       | _ => None
       end;
     now_isoformat := stamp |}.

(** A decoder that knows the one text above. *)
Definition sample_json (text : string) : option json :=
  if String.eqb text "{classified}"
  then Some (JObj [ ("error_type", JStr "RecursionError");
                    ("solutions",
                     JArr [ JObj [ ("fix", JStr "Add a base case");
                                   ("explanation", JStr "The function calls itself without end.");
                                   ("confidence", JNum 0.7);
                                   ("code_example", JStr "def f(n): return 1 if n == 0 else n * f(n - 1)") ] ]);
                    ("concepts", JArr [JStr "recursion"]) ])
  else None.

(** A configured process whose service answers every classification
    prompt with a text that [bare_json] decodes to an object without the
    three expected keys. *)
Definition vague (stamp : string) : World :=
  {| GEMINI_API_KEY := Some "secret";
     generate_content := fun p =>
       match p with
       | ClassifyPrompt _ _ => Some "{vague}"
       | _ => None
       end;
     now_isoformat := stamp |}.

Definition bare_json (text : string) : option json :=
  if String.eqb text "{vague}"
  then Some (JObj [("note", JStr "no idea")])
  else None.

(** The reverse of the iteration order of [insertion_order]. *)
Definition reverse_order : list string -> list string :=
  fun l => rev (remove_dups l).

(** A message of the interpreter for each entry of the catalog. *)
Definition sample_messages : list string :=
  [ "NameError: name 'x' is not defined";
    "TypeError: unsupported operand type(s) for +: 'int' and 'str'";
    "IndexError: list index out of range";
    "KeyError: 'colour'";
    "SyntaxError: invalid syntax";
    "IndentationError: unexpected indent";
    "ImportError: No module named 'numpy'";
    "AttributeError: 'int' object has no attribute 'append'";
    "ZeroDivisionError: division by zero";
    "ValueError: invalid literal for int() with base 10: 'abc'" ].

(** The history after a sequence of requests, each served in the
    surroundings it comes with. *)
Definition serve_all (set_order : list string -> list string)
  (json_loads : string -> option json) (str_field : json -> option string)
  (float_field : json -> option Q)
  (h : History) (requests : list (World * ErrorInput)) : History :=
  fold_left (fun h req =>
               (analyze_error set_order json_loads str_field float_field
                              req.1 h req.2).2)
            requests h.

(** The request is for project [p] and the scan of the catalog stops at
    the entry labelled [e]. *)
Definition concerns (p e : string) (req : World * ErrorInput) : bool :=
  match project_id req.2,
        first_match ERROR_PATTERNS (error_message req.2) with
  | Some q, Some (label, _) => String.eqb q p && String.eqb label e
  | _, _ => false
  end.

(** The record appended for a request. *)
Definition record_of (req : World * ErrorInput) : HistoryRecord :=
  {| timestamp := now_isoformat req.1;
     rec_error_message := error_message req.2;
     rec_code_context := code_context req.2 |}.

(** A configured process whose service answers a request for learning
    resources with a text that [listing_json] decodes to four items, the
    fourth of which is no resource. *)
Definition tutoring (stamp : string) : World :=
  {| GEMINI_API_KEY := Some "secret";
     generate_content := fun p =>
       match p with
       | ResourcesPrompt _ _ => Some "[listing]"
       | _ => None
       end;
     now_isoformat := stamp |}.

Definition sample_resource (name : string) : json :=
  JObj [ ("title", JStr name);
         ("description", JStr "A walk through the error");
         ("resource_type", JStr "article") ].

Definition listing_json (text : string) : option json :=
  if String.eqb text "[listing]"
  then Some (JArr [ sample_resource "One"; sample_resource "Two";
                    sample_resource "Three"; JNull ])
  else None.

(** A message in which two patterns of the catalog are found. *)
Definition two_matches : string :=
  "list index out of range, then name 'x' is not defined".

Definition foo_message : string := "name 'foo' is not defined".
Definition foo_context : string := "foo = 1" ++ nl ++ "foob = 2".

Definition my_list_context : string :=
  "my_list = [1, 2, 3]" ++ nl ++ "x = my_list[3]".

Definition empty_list_context : string :=
  "xs = []" ++ nl ++ "y = xs[0]".

(** ** Start of the process *)

(** Loading the module builds the catalog and an empty [ERROR_HISTORY];
    the environment is read by [setup_gemini] only, which no statement of
    the module calls outside the request handlers. *)
Definition startup (w : World) : option History := Some ∅.

(** The answer to the first request of a process started in [w]. *)
Definition first_answer (set_order : list string -> list string)
  (json_loads : string -> option json) (str_field : json -> option string)
  (float_field : json -> option Q) (w : World) (error_input : ErrorInput)
  : option (HTTPException + ErrorResponse) :=
  h ← startup w;
  Some (analyze_error set_order json_loads str_field float_field
                      w h error_input).1.

(** The response of [analyze_with_gemini] when [setup_gemini] raises. *)
Definition degraded_response (error_type : string)
  (solutions : list Solution) (concepts : list string) : ErrorResponse :=
  {| error_type := error_type;
     solutions := solutions;
     concepts := concepts;
     learning_resources :=
       Some [ {| title := "Understanding " ++ error_type;
                 description := "Learn about common " ++ error_type
                                ++ " issues";
                 url := None;
                 resource_type := "guide" |} ];
     statistics := Some empty_statistics |}.

(** ** Notions used in the statements *)

(** The two strings have different characters at position [i]; false at
    a position one of them does not have. *)
Definition differ_at (v u : string) (i : nat) : bool :=
  match String.get i v, String.get i u with
  | Some a, Some b => negb (Ascii.eqb a b)
  | _, _ => false
  end.

(** The count of mismatched positions as the description of the heuristic
    words it: the positions both strings have at which their characters
    differ, with no alignment. To be compared with [zip_differences],
    which is the sum of the source. *)
Definition positional_mismatches (v u : string) : nat :=
  length (List.filter (differ_at v u)
            (seq 0 (Nat.min (String.length v) (String.length u)))).

(** A snippet with a name that differs from [foo] at three positions, a
    name three characters longer than [foo], and a name that differs
    from it at one position. *)
Definition far_context : string := "bar = foo" ++ nl ++ "fooooo = foa".

(** What is asked of the iteration order of a set: each added element
    comes once. *)
Definition iterates_set (set_order : list string -> list string) : Prop :=
  forall l, NoDup (set_order l) /\ forall x, x ∈ set_order l <-> x ∈ l.

(** [ca] is the issue raised by some declared list and some literal
    subscript of its name that is not below the estimated length. *)
Definition flagged_by (code_context : string) (ca : ContextAnalysis) : Prop :=
  exists name content idx,
    [name; content] ∈ findall list_pattern code_context
    /\ idx ∈ index_matches name code_context
    /\ length (str_split "," content) <= int_of_digits idx
    /\ ca = {| specific_issue :=
                 Some (index_issue (int_of_digits idx) name);
               specific_fix :=
                 Some (index_fix name (length (str_split "," content))) |}.

(** ** The other endpoint *)

(** [get_supported_languages] *)
Definition get_supported_languages : list string :=
  ["python"; "javascript"; "java"; "csharp"].

(** ** Notions used in the further properties *)

(** Every character of [s] passes [p]. *)
Fixpoint string_forall (p : ascii -> bool) (s : string) : bool :=
  match s with
  | EmptyString => true
  | String a s' => p a && string_forall p s'
  end.

(** What an atom may consume at [s], [prev] being the character before. *)
Definition atom_accepts (a : atom) (prev : option ascii) (s w : string)
  : Prop :=
  match a with
  | Lit l => w = l
  | Rep c least _ =>
      least <= String.length w /\ string_forall (in_class c) w = true
  | Alt alts => In w alts
  | Bound => w = "" /\ at_boundary prev s = true
  end.





(** ** Checks of the text functions on samples *)

Example split_commas : str_split "," "1, 2, 3" = ["1"; " 2"; " 3"].
Proof. reflexivity. Qed.

Example split_empty : str_split "," "" = [""].
Proof. reflexivity. Qed.

Example split_fence :
  str_split "```" "a```json b``` c" = ["a"; "json b"; " c"].
Proof. reflexivity. Qed.

Example strip_spaces : str_strip ("  a b " ++ nl) = "a b".
Proof. reflexivity. Qed.

Example findall_words :
  findall [N Bound; G word_plus; N Bound] "foo = 1" = [["foo"]; ["1"]].
Proof. reflexivity. Qed.

Example findall_list_decl :
  findall [G word_plus; N space_star; N (Lit "="); N space_star;
           N (Lit "["); G any_lazy; N (Lit "]")]
          ("my_list = [1, 2, 3]" ++ nl ++ "x = my_list[3]")
  = [["my_list"; "1, 2, 3"]].
Proof. reflexivity. Qed.

Example index_example :
  analyze_code_context id "IndexError" "list index out of range"
    (Some ("my_list = [1, 2, 3]" ++ nl ++ "x = my_list[3]"))
  = Some {| specific_issue :=
              Some "Index 3 is out of range for list 'my_list'";
            specific_fix :=
              Some "The list 'my_list' appears to have 3 items (indices 0-2)" |}.
Proof. vm_compute. reflexivity. Qed.

Example name_example :
  analyze_code_context insertion_order "NameError" "name 'foo' is not defined"
    (Some ("foo = 1" ++ nl ++ "foob = 2"))
  = Some {| specific_issue :=
              Some "You might have a typo in variable name 'foo'";
            specific_fix :=
              Some "Did you mean '1'? Similar variables found: 1, foob, 2" |}.
Proof. vm_compute. reflexivity. Qed.

(** ** Facts about text and matching *)

Module ReFacts.

Lemma str_take_app n s t :
  n <= String.length s -> str_take n (s ++ t) = str_take n s.
Proof.
  revert s; induction n as [|n IH]; intros [|a s] Hn; simpl in *.
  - destruct t; reflexivity.
  - reflexivity.
  - lia.
  - f_equal. apply IH. lia.
Qed.

Lemma str_drop_app n s t :
  n <= String.length s -> str_drop n (s ++ t) = str_drop n s ++ t.
Proof.
  revert s; induction n as [|n IH]; intros [|a s] Hn; simpl in *.
  - destruct t; reflexivity.
  - reflexivity.
  - lia.
  - apply IH. lia.
Qed.

Lemma strip_prefix_app p s t r :
  strip_prefix p s = Some r -> strip_prefix p (s ++ t) = Some (r ++ t).
Proof.
  revert s; induction p as [|a p IH]; intros s H; simpl in *.
  - congruence.
  - destruct s as [|b s]; [discriminate|]. simpl.
    destruct (Ascii.eqb a b); [auto | discriminate].
Qed.

Lemma run_le_length c s : run c s <= String.length s.
Proof.
  induction s as [|a s IH]; simpl; [lia|].
  destruct (in_class c a); lia.
Qed.

Lemma run_app c s t : run c s <= run c (s ++ t).
Proof.
  induction s as [|a s IH]; simpl; [lia|].
  destruct (in_class c a); lia.
Qed.

Lemma in_candidates least most greedy n :
  In n (candidates least most greedy) <-> least <= n <= most.
Proof.
  unfold candidates. destruct greedy; rewrite <- ?in_rev, in_seq; lia.
Qed.

Lemma first_some_is_Some {A B} (f : A -> option B) l :
  is_Some (first_some f l) <-> exists x, In x l /\ is_Some (f x).
Proof.
  induction l as [|x l IH]; simpl.
  - split; [intros [y Hy]; discriminate | intros (x & [] & _)].
  - destruct (f x) as [y|] eqn:Hfx.
    + split; [|eauto]. intros _. exists x. rewrite Hfx. eauto.
    + rewrite IH. split.
      * intros (z & Hz & Hfz). eauto.
      * intros (z & [-> | Hz] & Hfz); [|eauto].
        rewrite Hfx in Hfz. destruct Hfz; discriminate.
Qed.

(** A match of a pattern without [\b] stays a match when text is added
    after it, whatever stands before it. *)
Lemma match_here_extend r :
  no_bound r = true ->
  forall prev prev' s t,
    is_Some (match_here r prev s) -> is_Some (match_here r prev' (s ++ t)).
Proof.
  induction r as [|i r IH]; intros Hnb prev prev' s t H; simpl in *.
  - eauto.
  - apply andb_prop in Hnb as [Hi Hr]. specialize (IH Hr).
    assert (Hk : forall w rest p p',
      is_Some (match match_here r p rest with
               | Some (gs, after) =>
                   Some (if captures i then w :: gs else gs, after)
               | None => None end) ->
      is_Some (match match_here r p' (rest ++ t) with
               | Some (gs, after) =>
                   Some (if captures i then w :: gs else gs, after)
               | None => None end)).
    { intros w rest p p' Hm.
      destruct (match_here r p rest) as [[gs after]|] eqn:E;
        [|destruct Hm; discriminate].
      destruct (IH p p' rest t) as [[gs' after'] ->]; eauto. }
    destruct (atom_of i) as [l|c least greedy|alts|]; [| | |discriminate].
    + destruct (strip_prefix l s) as [rest|] eqn:E;
        [|destruct H; discriminate].
      rewrite (strip_prefix_app _ _ t _ E). eapply Hk, H.
    + apply first_some_is_Some in H as (n & Hn & Hm).
      apply in_candidates in Hn. apply first_some_is_Some.
      pose proof (run_le_length c s). pose proof (run_app c s t).
      exists n. split; [apply in_candidates; lia|].
      rewrite str_take_app, str_drop_app by lia. eapply Hk, Hm.
    + apply first_some_is_Some in H as (a & Ha & Hm).
      apply first_some_is_Some. exists a. split; [done|].
      destruct (strip_prefix a s) as [rest|] eqn:E;
        [|destruct Hm; discriminate].
      rewrite (strip_prefix_app _ _ t _ E). eapply Hk, Hm.
Qed.

Lemma append_nil (t : string) : "" ++ t = t.
Proof. reflexivity. Qed.

Lemma append_cons a (s t : string) : String a s ++ t = String a (s ++ t).
Proof. reflexivity. Qed.

Lemma append_empty (s : string) : s ++ "" = s.
Proof.
  induction s as [|a s IH]; [reflexivity|]. by rewrite append_cons, IH.
Qed.

Lemma append_assoc (s t u : string) : (s ++ t) ++ u = s ++ t ++ u.
Proof.
  induction s as [|a s IH]; [reflexivity|]. by rewrite !append_cons, IH.
Qed.

Lemma search_from_extend r :
  no_bound r = true ->
  forall s prev prev' t,
    is_Some (search_from r prev s) ->
    is_Some (search_from r prev' (s ++ t)).
Proof.
  intros Hnb. induction s as [|a s IH]; intros prev prev' t H.
  - simpl in H.
    destruct (match_here r prev "") as [[gs after]|] eqn:E;
      [|destruct H; discriminate].
    assert (Hm : is_Some (match_here r prev' ("" ++ t))).
    { eapply match_here_extend; eauto. }
    destruct Hm as [[gs' after'] Hm]. rewrite append_nil in *.
    destruct t; simpl; rewrite Hm; eauto.
  - rewrite append_cons. simpl in H |- *.
    destruct (match_here r prev (String a s)) as [[gs after]|] eqn:E.
    + assert (Hm : is_Some (match_here r prev' (String a s ++ t))).
      { eapply match_here_extend; eauto. }
      destruct Hm as [[gs' after'] Hm]. rewrite append_cons in Hm.
      rewrite Hm. eauto.
    + destruct (match_here r prev' (String a (s ++ t))) as [[gs' after']|];
        eauto.
Qed.

(** [re.search] is not anchored: what is found in a message is found in
    any text that contains the message. *)
Lemma search_unanchored r before s after :
  no_bound r = true ->
  is_Some (search r s) -> is_Some (search r (before ++ s ++ after)).
Proof.
  intros Hnb H. unfold search in *.
  generalize (@None ascii). induction before as [|a b IH]; intros prev.
  - rewrite append_nil. eapply search_from_extend; eauto.
  - rewrite append_cons. simpl.
    destruct (match_here r prev _) as [[gs rest]|]; eauto.
Qed.

End ReFacts.

(** ** Facts about the handler *)

Section HandlerFacts.

Variable set_order : list string -> list string.
Variable json_loads : string -> option json.
Variable str_field : json -> option string.
Variable float_field : json -> option Q.

Abbreviation handle := (analyze_error set_order json_loads str_field float_field).
Abbreviation augment := (analyze_with_gemini json_loads str_field).

Lemma first_match_lookup entries message i error_type error_info :
  entries !! i = Some (error_type, error_info) ->
  is_Some (search (pat_pattern error_info) message) ->
  (forall j e, j < i -> entries !! j = Some e ->
               search (pat_pattern e.2) message = None) ->
  first_match entries message = Some (error_type, error_info).
Proof.
  revert i. induction entries as [|[t e] rest IH]; intros i Hi Hm Hfirst.
  - discriminate.
  - destruct i as [|i]; simpl in *.
    + injection Hi as -> ->. destruct Hm as [gs ->]. reflexivity.
    + pose proof (Hfirst 0 (t, e) ltac:(lia) eq_refl) as H0. simpl in H0.
      rewrite H0. apply (IH i); auto.
      intros j e' Hj He'. apply (Hfirst (S j)); [lia|exact He'].
Qed.

Lemma first_match_Some entries message error_type error_info :
  first_match entries message = Some (error_type, error_info) ->
  (error_type, error_info) ∈ entries
  /\ is_Some (search (pat_pattern error_info) message).
Proof.
  induction entries as [|[t e] rest IH]; simpl; [discriminate|].
  destruct (search (pat_pattern e) message) as [gs|] eqn:E.
  - intros [= -> ->]. split; [left | rewrite E; eauto].
  - intros H. destruct (IH H). split; [by right | done].
Qed.

Lemma first_match_None entries message :
  first_match entries message = None <->
  forall error_type error_info,
    (error_type, error_info) ∈ entries ->
    search (pat_pattern error_info) message = None.
Proof.
  induction entries as [|[t e] rest IH]; simpl.
  - split; [|done]. intros _ ? ? H. inversion H.
  - destruct (search (pat_pattern e) message) as [gs|] eqn:E.
    + split; [discriminate|]. intros H.
      specialize (H t e (list_elem_of_here _ _)). congruence.
    + rewrite IH. split.
      * intros H t' e' Hin. apply elem_of_cons in Hin as [Heq|Hin].
        -- injection Heq as -> ->. exact E.
        -- by apply (H t').
      * intros H t' e' Hin. apply (H t'). by right.
Qed.

(** The augmentation never changes the label, the solutions or the
    concepts it is given. *)
Lemma augment_keeps w h error_input label sols topics :
  let r := (augment w h error_input label sols topics).1 in
  error_type r = label /\ solutions r = sols /\ concepts r = topics.
Proof.
  unfold analyze_with_gemini. destruct (setup_gemini w); simpl.
  - destruct (analyze_error_patterns _ _ _ _ _ _ _); simpl. auto.
  - auto.
Qed.

(** A request whose message matches an entry is answered with a response
    made from that entry. *)
Lemma handle_matched w h error_input error_type error_info :
  first_match ERROR_PATTERNS (error_message error_input)
    = Some (error_type, error_info) ->
  handle w h error_input =
    let '(response, h') :=
      augment w h error_input error_type
        (matched_solutions set_order error_input error_type error_info)
        (pat_concepts error_info) in
    (inr response, h').
Proof. unfold analyze_error. intros ->. reflexivity. Qed.

Lemma handle_unmatched w h error_input :
  first_match ERROR_PATTERNS (error_message error_input) = None ->
  handle w h error_input =
    match classification json_loads str_field float_field w error_input with
    | Some (error_type, solutions, concepts) =>
        let '(response, h') :=
          augment w h error_input error_type solutions concepts in
        (inr response, h')
    | None => (inl not_recognized, h)
    end.
Proof. unfold analyze_error. intros ->. reflexivity. Qed.

End HandlerFacts.

(** ** Catalog matching *)

Lemma catalog_has_no_boundary label info :
  (label, info) ∈ ERROR_PATTERNS -> no_bound (pat_pattern info) = true.
Proof.
  intros H. apply list_elem_of_In in H.
  assert (Hall : forallb (fun e => no_bound (pat_pattern e.2))
                         ERROR_PATTERNS = true) by reflexivity.
  rewrite forallb_forall in Hall. exact (Hall _ H).
Qed.

(** C1. When a message matches the patterns of several catalog entries, the
    response carries the label of the first matching entry in the order of
    the table. A pattern is looked for anywhere in the message ([re.search]
    is not anchored) and letters are compared exactly (case matters). *)
Theorem first_matching_entry_gives_type :
  (forall set_order json_loads str_field float_field w h error_input
          i label info,
     ERROR_PATTERNS !! i = Some (label, info) ->
     is_Some (search (pat_pattern info) (error_message error_input)) ->
     (forall j e, j < i -> ERROR_PATTERNS !! j = Some e ->
        search (pat_pattern e.2) (error_message error_input) = None) ->
     exists r,
       (analyze_error set_order json_loads str_field float_field
                      w h error_input).1 = inr r
       /\ error_type r = label)
  /\ (forall label info before message after,
        (label, info) ∈ ERROR_PATTERNS ->
        is_Some (search (pat_pattern info) message) ->
        is_Some (search (pat_pattern info) (before ++ message ++ after)))
  /\ (forall label info,
        (label, info) ∈ ERROR_PATTERNS ->
        search (pat_pattern info) "LIST INDEX OUT OF RANGE" = None)
  /\ is_Some (first_match ERROR_PATTERNS "list index out of range").
Proof.
  split; [|split; [|split]].
  - intros so jl sf ff w h inp i label info Hi Hm Hfirst.
    rewrite (handle_matched so jl sf ff w h inp label info)
      by (eapply first_match_lookup; eauto).
    pose proof (augment_keeps jl sf w h inp label
                  (matched_solutions so inp label info)
                  (pat_concepts info)) as (Ht & _).
    destruct (analyze_with_gemini _ _ _ _ _ _ _ _) as [r h'].
    exists r. split; [reflexivity | exact Ht].
  - intros label info before message after Hin Hm.
    apply ReFacts.search_unanchored; [|exact Hm].
    eapply catalog_has_no_boundary, Hin.
  - intros label info Hin.
    assert (H : first_match ERROR_PATTERNS "LIST INDEX OUT OF RANGE" = None)
      by (vm_compute; reflexivity).
    rewrite first_match_None in H. eapply H, Hin.
  - vm_compute. eauto.
Qed.

(** [two_matches] matches the third and the first entry of the table, in
    that order of appearance; the label is the one of the first entry. *)
Lemma first_matching_entry_gives_type_witness :
  is_Some (search [N (Lit "list index out of range")] two_matches)
  /\ is_Some (search undefined_var_pattern two_matches)
  /\ exists r,
       (analyze_error insertion_order no_json strict_str strict_float
          (offline "2025-01-01T00:00:00") ∅
          (request two_matches None None)).1 = inr r
       /\ error_type r = "NameError".
Proof.
  split; [vm_compute; eauto|]. split; [vm_compute; eauto|].
  eapply (proj1 first_matching_entry_gives_type insertion_order no_json
           strict_str strict_float (offline "2025-01-01T00:00:00") ∅
           (request two_matches None None) 0 "NameError").
  - reflexivity.
  - vm_compute. eauto.
  - intros j e Hj. lia.
Defined.

(** ** Failure of the handler *)

(** C2. The handler fails exactly when no catalog pattern is found in the
    message and the AI classification raises; the failure is the 404 "not
    recognized". In particular a request that matches an entry never
    fails. *)
Theorem fails_iff_unmatched_and_unclassified :
  forall set_order json_loads str_field float_field w h error_input,
    let result :=
      (analyze_error set_order json_loads str_field float_field
                     w h error_input).1 in
    ((exists e, result = inl e) <->
       (forall label info,
          (label, info) ∈ ERROR_PATTERNS ->
          search (pat_pattern info) (error_message error_input) = None)
       /\ classification json_loads str_field float_field w error_input
          = None)
    /\ (forall e, result = inl e -> e = not_recognized /\ status_code e = 404).
Proof.
  intros so jl sf ff w h inp result. subst result.
  destruct (first_match ERROR_PATTERNS (error_message inp))
    as [[label info]|] eqn:Hfm.
  - rewrite (handle_matched so jl sf ff w h inp label info Hfm).
    destruct (analyze_with_gemini _ _ _ _ _ _ _ _) as [r h']. simpl.
    split; [|intros e [=]]. split.
    + intros [e [=]].
    + intros [Hnone _]. apply first_match_None in Hnone. congruence.
  - rewrite (handle_unmatched so jl sf ff w h inp Hfm).
    pose proof (proj1 (first_match_None _ _) Hfm) as Hnone.
    destruct (classification jl sf ff w inp) as [[[label sols] topics]|].
    + destruct (analyze_with_gemini _ _ _ _ _ _ _ _) as [r h']. simpl.
      split; [|intros e [=]]. split.
      * intros [e [=]].
      * intros [_ [=]].
    + simpl. split.
      * split; [auto | eauto].
      * intros e [= <-]. auto.
Qed.

(** ** A process without the credential *)

(** Both outcomes of the unmatched path occur. *)
Example unmatched_and_unclassified :
  (analyze_error insertion_order sample_json strict_str strict_float
     (offline "2025-01-01T00:00:00") ∅
     (request "RecursionError: maximum recursion depth exceeded" None None)).1
  = inl not_recognized.
Proof. vm_compute. reflexivity. Qed.

Example unmatched_and_classified :
  exists r,
    (analyze_error insertion_order sample_json strict_str strict_float
       (classifying "2025-01-01T00:00:00") ∅
       (request "RecursionError: maximum recursion depth exceeded" None None)).1
    = inr r
    /\ error_type r = "RecursionError"
    /\ concepts r = ["recursion"]
    /\ length (solutions r) = 1.
Proof. eexists. split; [vm_compute; reflexivity|]. repeat split. Qed.

Example extract_json_fenced :
  extract_json ("Here it is:" ++ nl ++ "```json" ++ nl ++ "{classified}"
                ++ nl ++ "```")
  = Some "{classified}".
Proof. vm_compute. reflexivity. Qed.

(** C3, as the code has it: started without the credential, the process
    answers its first request. *)
Lemma answers_without_credential :
  GEMINI_API_KEY unconfigured = None
  /\ exists r,
       first_answer insertion_order no_json strict_str strict_float
         unconfigured (request "list index out of range" None None)
       = Some (inr r).
Proof. split; [reflexivity|]. vm_compute. eauto. Qed.

(** C3, amended. Without the credential the process starts and serves:
    a request that matches a catalog entry is answered with the solutions
    and concepts of the entry, one generic learning resource and empty
    statistics, and nothing is recorded; a request that matches no entry
    fails with the 404. *)
Theorem missing_credential_degrades :
  forall set_order json_loads str_field float_field w h error_input,
    GEMINI_API_KEY w = None ->
    is_Some (startup w)
    /\ analyze_error set_order json_loads str_field float_field
                     w h error_input
       = match first_match ERROR_PATTERNS (error_message error_input) with
         | Some (label, info) =>
             (inr (degraded_response label
                     (matched_solutions set_order error_input label info)
                     (pat_concepts info)), h)
         | None => (inl not_recognized, h)
         end.
Proof.
  intros so jl sf ff w h inp Hkey. split; [eexists; reflexivity|].
  destruct (first_match ERROR_PATTERNS (error_message inp))
    as [[label info]|] eqn:Hfm.
  - rewrite (handle_matched so jl sf ff w h inp label info Hfm).
    unfold analyze_with_gemini, setup_gemini. rewrite Hkey. reflexivity.
  - rewrite (handle_unmatched so jl sf ff w h inp Hfm).
    unfold classification, setup_gemini. rewrite Hkey. reflexivity.
Qed.

Lemma missing_credential_degrades_witness :
  analyze_error insertion_order no_json strict_str strict_float
    unconfigured ∅ (request "ZeroDivisionError: division by zero" None
                            (Some "p1"))
  = (inr (degraded_response "ZeroDivisionError"
            [ {| fix_ := "Check for zero before dividing";
                 explanation :=
                   "This error occurs when you try to divide by zero.";
                 confidence := 0.95;
                 code_example := ZeroDivisionError_example |} ]
            ["division"; "error checking"; "defensive programming"]), ∅).
Proof.
  exact (proj2 (missing_credential_degrades insertion_order no_json
                  strict_str strict_float unconfigured ∅
                  (request "ZeroDivisionError: division by zero" None
                           (Some "p1")) eq_refl)).
Defined.

(** ** Learning resources *)

(** C4. For a request that matches a catalog entry, in a configured
    process, a failure of the learning-resources call (the service raises,
    its text is not JSON, an item lacks a field) does not fail the
    request: the response carries the three fallback resources, made from
    the label and from the first concept of the entry. *)
Theorem resources_failure_gives_fallback :
  forall set_order json_loads str_field float_field w h error_input
         label info,
    setup_gemini w = Some tt ->
    first_match ERROR_PATTERNS (error_message error_input)
      = Some (label, info) ->
    requested_resources json_loads str_field w label (pat_concepts info)
      = None ->
    exists r first_concept others,
      (analyze_error set_order json_loads str_field float_field
                     w h error_input).1 = inr r
      /\ pat_concepts info = first_concept :: others
      /\ learning_resources r =
           Some [ {| title := "Understanding " ++ label ++ " in Python";
                     description := "Learn how to debug and prevent "
                                    ++ label ++ " errors";
                     url := None;
                     resource_type := "article" |};
                  {| title := "Common causes of " ++ label;
                     description :=
                       "Explore the most frequent mistakes that lead to "
                       ++ label;
                     url := None;
                     resource_type := "tutorial" |};
                  {| title := "Best practices to avoid " ++ first_concept;
                     description :=
                       "Preventive techniques for writing more robust code";
                     url := None;
                     resource_type := "guide" |} ].
Proof.
  intros so jl sf ff w h inp label info Hsetup Hfm Hraise.
  assert (Hc : exists c cs, pat_concepts info = c :: cs).
  { apply first_match_Some in Hfm as [Hin _].
    repeat (apply elem_of_cons in Hin as [[= -> ->]|Hin];
            [simpl; eauto|]).
    inversion Hin. }
  destruct Hc as (c & cs & Hc).
  rewrite (handle_matched so jl sf ff w h inp label info Hfm).
  unfold analyze_with_gemini, get_learning_resources.
  rewrite Hsetup, Hraise.
  destruct (analyze_error_patterns _ _ _ _ _ _ _) as [stats h'].
  eexists _, c, cs. split; [reflexivity|]. split; [exact Hc|].
  simpl. unfold fallback_resources. rewrite Hc. reflexivity.
Qed.

Lemma resources_failure_gives_fallback_witness :
  exists r first_concept others,
    (analyze_error insertion_order no_json strict_str strict_float
       (offline "2025-01-01T00:00:00") ∅
       (request "KeyError: 'colour'" None None)).1 = inr r
    /\ ["dictionaries"; "key validation"; "default values"]
       = first_concept :: others
    /\ learning_resources r =
         Some [ {| title := "Understanding " ++ "KeyError" ++ " in Python";
                   description := "Learn how to debug and prevent "
                                  ++ "KeyError" ++ " errors";
                   url := None;
                   resource_type := "article" |};
                {| title := "Common causes of " ++ "KeyError";
                   description :=
                     "Explore the most frequent mistakes that lead to "
                     ++ "KeyError";
                   url := None;
                   resource_type := "tutorial" |};
                {| title := "Best practices to avoid " ++ first_concept;
                   description :=
                     "Preventive techniques for writing more robust code";
                   url := None;
                   resource_type := "guide" |} ].
Proof.
  exact (resources_failure_gives_fallback insertion_order no_json
           strict_str strict_float (offline "2025-01-01T00:00:00") ∅
           (request "KeyError: 'colour'" None None) "KeyError" _
           eq_refl eq_refl eq_refl).
Defined.

(** The three ways in which the [try] block of [get_learning_resources]
    raises: the call itself, the decoding, the validation of an item. *)
Lemma requested_resources_raises json_loads str_field w label topics :
  let ask := ResourcesPrompt label (str_join ", " topics) in
  (generate_content w ask = None ->
   requested_resources json_loads str_field w label topics = None)
  /\ (forall content text,
        generate_content w ask = Some content ->
        extract_json content = Some text ->
        json_loads text = None ->
        requested_resources json_loads str_field w label topics = None)
  /\ (forall content text fields others,
        generate_content w ask = Some content ->
        extract_json content = Some text ->
        json_loads text = Some (JArr (JObj fields :: others)) ->
        dict_get fields "title" = None ->
        requested_resources json_loads str_field w label topics = None).
Proof.
  unfold requested_resources. repeat split.
  - intros ->. reflexivity.
  - intros content text -> Htext Hjson. simpl. rewrite Htext. simpl.
    rewrite Hjson. reflexivity.
  - intros content text fields others -> Htext Hjson Htitle. simpl.
    rewrite Htext. simpl. rewrite Hjson. simpl.
    unfold required. rewrite Htitle. reflexivity.
Qed.

(** ** History *)

Lemma records_after_record_error w h project label message context :
  records_of (record_error w h project label message context) project label
  = (records_of h project label
     ++ [ {| timestamp := now_isoformat w;
             rec_error_message := message;
             rec_code_context := context |} ])%list.
Proof.
  unfold record_error, records_of at 1.
  rewrite lookup_insert_eq. simpl. rewrite lookup_insert_eq. reflexivity.
Qed.

Lemma second_to_last_snoc (l : list HistoryRecord) x :
  second_to_last (l ++ [x])%list = last l.
Proof.
  unfold second_to_last. rewrite length_app, last_lookup.
  change (length [x]) with 1.
  destruct l as [|y l]; [reflexivity|].
  assert (Hle : Nat.leb 2 (length (y :: l) + 1) = true)
    by (apply Nat.leb_le; simpl; lia).
  rewrite Hle.
  replace (length (y :: l) + 1 - 2) with (Init.Nat.pred (length (y :: l)))
    by (simpl; lia).
  apply lookup_app_l. simpl. lia.
Qed.

(** What [analyze_error_patterns] does with a project identifier. *)
Lemma statistics_with_project json_loads w h label message context project :
  project <> "" ->
  let old := records_of h project label in
  let out := analyze_error_patterns json_loads w h label message context
               (Some project) in
  records_of out.2 project label
  = (old ++ [ {| timestamp := now_isoformat w;
                 rec_error_message := message;
                 rec_code_context := context |} ])%list
  /\ frequency out.1 = Some (S (length old))
  /\ last_occurrence out.1 = timestamp <$> last old.
Proof.
  intros Hne old out. subst old out.
  destruct project as [|a p]; [done|]. unfold analyze_error_patterns.
  rewrite records_after_record_error.
  set (old := records_of h (String a p) label).
  set (new := (old ++ [_])%list).
  assert (Hlen : length new = S (length old))
    by (unfold new; rewrite length_app; simpl; lia).
  assert (Hlast : (if Nat.ltb 1 (length new)
                   then timestamp <$> second_to_last new else None)
                  = timestamp <$> last old).
  { unfold new at 2. rewrite second_to_last_snoc, Hlen.
    destruct old; reflexivity. }
  destruct (Nat.ltb 1 (length new)) eqn:E;
    [destruct (requested_insights _ _ _ _) as [[cc re]|]|]; simpl;
    rewrite ?records_after_record_error, ?Hlen; fold old; fold new;
    rewrite <- ?Hlast, ?E; auto.
Qed.

(** The answer to a matched request in a configured process. *)
Lemma handle_matched_configured set_order json_loads str_field float_field
  w h error_input label info :
  setup_gemini w = Some tt ->
  first_match ERROR_PATTERNS (error_message error_input)
    = Some (label, info) ->
  let out := analyze_error_patterns json_loads w h label
               (error_message error_input) (code_context error_input)
               (project_id error_input) in
  analyze_error set_order json_loads str_field float_field w h error_input
  = (inr {| error_type := label;
            solutions := matched_solutions set_order error_input label info;
            concepts := pat_concepts info;
            learning_resources :=
              Some (get_learning_resources json_loads str_field w label
                      (pat_concepts info));
            statistics := Some out.1 |}, out.2).
Proof.
  intros Hsetup Hfm out. subst out.
  rewrite (handle_matched set_order json_loads str_field float_field
             w h error_input label info Hfm).
  unfold analyze_with_gemini. rewrite Hsetup.
  destruct (analyze_error_patterns _ _ _ _ _ _ _). reflexivity.
Qed.

(** C5, as the code has it: a request that carries a project identifier
    and is served without the credential appends no record and reports no
    frequency. *)
Lemma no_record_without_credential :
  project_id (request "list index out of range" None (Some "shop"))
    = Some "shop"
  /\ exists r stats,
       analyze_error insertion_order no_json strict_str strict_float
         unconfigured ∅
         (request "list index out of range" None (Some "shop"))
       = (inr r, ∅)
       /\ records_of (∅ : History) "shop" "IndexError" = []
       /\ statistics r = Some stats
       /\ frequency stats = None.
Proof.
  split; [reflexivity|]. eexists _, _.
  split; [vm_compute; reflexivity|]. repeat split.
Qed.

(** C5, amended. Whenever the statistics step runs with a non-empty
    project identifier, as it does for every request served with the
    credential configured whose message matches a catalog entry, the
    record of the request is appended before the statistics are computed:
    the frequency is the number of records including the new one, and the
    last occurrence is the timestamp of the second-to-last record when
    there are at least two, and absent otherwise. So of two such requests
    in a row for the same project and error type, starting from no record,
    the second reports frequency 2 and the timestamp of the first. Without
    the credential the step is skipped: nothing is recorded and the
    statistics are empty. *)
Theorem history_counts_current_occurrence :
  (forall json_loads w h label message context project,
     project <> "" ->
     let out := analyze_error_patterns json_loads w h label message context
                  (Some project) in
     let records := records_of out.2 project label in
     records = (records_of h project label
                ++ [ {| timestamp := now_isoformat w;
                        rec_error_message := message;
                        rec_code_context := context |} ])%list
     /\ frequency out.1 = Some (length records)
     /\ last_occurrence out.1
        = if Nat.leb 2 (length records)
          then timestamp <$> records !! (length records - 2)
          else None)
  /\ (forall set_order json_loads str_field float_field w h error_input
             project label info,
        project <> "" ->
        setup_gemini w = Some tt ->
        project_id error_input = Some project ->
        first_match ERROR_PATTERNS (error_message error_input)
          = Some (label, info) ->
        let out := analyze_error set_order json_loads str_field float_field
                                 w h error_input in
        let records := records_of out.2 project label in
        records = (records_of h project label
                   ++ [ {| timestamp := now_isoformat w;
                           rec_error_message := error_message error_input;
                           rec_code_context := code_context error_input |} ])%list
        /\ exists r stats,
             out.1 = inr r
             /\ statistics r = Some stats
             /\ frequency stats = Some (length records)
             /\ last_occurrence stats
                = if Nat.leb 2 (length records)
                  then timestamp <$> records !! (length records - 2)
                  else None)
  /\ (forall set_order json_loads str_field float_field w1 w2 h
             first second project label info1 info2,
        project <> "" ->
        setup_gemini w1 = Some tt ->
        setup_gemini w2 = Some tt ->
        project_id first = Some project ->
        project_id second = Some project ->
        first_match ERROR_PATTERNS (error_message first)
          = Some (label, info1) ->
        first_match ERROR_PATTERNS (error_message second)
          = Some (label, info2) ->
        records_of h project label = [] ->
        let handle := analyze_error set_order json_loads str_field
                                    float_field in
        exists r stats,
          (handle w2 (handle w1 h first).2 second).1 = inr r
          /\ statistics r = Some stats
          /\ frequency stats = Some 2
          /\ last_occurrence stats = Some (now_isoformat w1))
  /\ (forall set_order json_loads str_field float_field w h error_input
             label info,
        setup_gemini w = None ->
        first_match ERROR_PATTERNS (error_message error_input)
          = Some (label, info) ->
        exists r,
          analyze_error set_order json_loads str_field float_field
                        w h error_input = (inr r, h)
          /\ statistics r = Some empty_statistics).
Proof.
  assert (Hstep : forall json_loads w h label message context project,
     project <> "" ->
     let out := analyze_error_patterns json_loads w h label message context
                  (Some project) in
     let records := records_of out.2 project label in
     records = (records_of h project label
                ++ [ {| timestamp := now_isoformat w;
                        rec_error_message := message;
                        rec_code_context := context |} ])%list
     /\ frequency out.1 = Some (length records)
     /\ last_occurrence out.1
        = if Nat.leb 2 (length records)
          then timestamp <$> records !! (length records - 2)
          else None).
  { intros jl w h label message context project Hne out records.
    destruct (statistics_with_project jl w h label message context project
                Hne) as (Hrec & Hfreq & Hlast).
    fold out in Hrec, Hfreq, Hlast. fold records in Hrec.
    split; [exact Hrec|]. split.
    + rewrite Hfreq, Hrec, length_app. simpl. f_equal. lia.
    + rewrite Hlast, Hrec.
      rewrite <- (second_to_last_snoc (records_of h project label)
                    {| timestamp := now_isoformat w;
                       rec_error_message := message;
                       rec_code_context := context |}).
      unfold second_to_last. destruct (Nat.leb 2 _); reflexivity. }
  split; [exact Hstep|]. split; [|split].
  - intros so jl sf ff w h inp project label info Hne Hs Hp Hm out records.
    subst out records.
    rewrite (handle_matched_configured so jl sf ff w h inp label info Hs Hm).
    rewrite Hp. simpl fst. simpl snd.
    destruct (Hstep jl w h label (error_message inp) (code_context inp)
                project Hne) as (Hrec & Hfreq & Hlast).
    split; [exact Hrec|]. eexists _, _.
    split; [reflexivity|]. split; [reflexivity|]. split; assumption.
  - intros so jl sf ff w1 w2 h first second project label info1 info2
           Hne Hs1 Hs2 Hp1 Hp2 Hm1 Hm2 Hempty handle. subst handle.
    rewrite (handle_matched_configured so jl sf ff w1 h first label info1
               Hs1 Hm1).
    rewrite (handle_matched_configured so jl sf ff w2 _ second label info2
               Hs2 Hm2).
    rewrite Hp1, Hp2. simpl.
    destruct (statistics_with_project jl w1 h label (error_message first)
                (code_context first) project Hne) as (Hrec1 & _ & _).
    destruct (statistics_with_project jl w2
                (analyze_error_patterns jl w1 h label (error_message first)
                   (code_context first) (Some project)).2
                label (error_message second) (code_context second) project
                Hne) as (_ & Hfreq & Hlast).
    rewrite Hrec1, Hempty in Hfreq, Hlast. simpl in Hfreq, Hlast.
    eexists _, _. split; [reflexivity|]. split; [reflexivity|].
    simpl. split; [exact Hfreq | exact Hlast].
  - intros so jl sf ff w h inp label info Hs Hm.
    rewrite (handle_matched so jl sf ff w h inp label info Hm).
    unfold analyze_with_gemini. rewrite Hs.
    eexists. split; reflexivity.
Qed.

Lemma history_counts_current_occurrence_witness :
  exists r stats,
    (analyze_error insertion_order no_json strict_str strict_float
       (offline "2025-01-01T10:00:05")
       (analyze_error insertion_order no_json strict_str strict_float
          (offline "2025-01-01T10:00:00") ∅
          (request "list index out of range" None (Some "shop"))).2
       (request "list index out of range" None (Some "shop"))).1 = inr r
    /\ statistics r = Some stats
    /\ frequency stats = Some 2
    /\ last_occurrence stats = Some "2025-01-01T10:00:00".
Proof.
  eapply (proj1 (proj2 (proj2 history_counts_current_occurrence))
            insertion_order no_json
            strict_str strict_float (offline "2025-01-01T10:00:00")
            (offline "2025-01-01T10:00:05") ∅
            (request "list index out of range" None (Some "shop"))
            (request "list index out of range" None (Some "shop"))
            "shop" "IndexError").
  - discriminate.
  - reflexivity.
  - reflexivity.
  - reflexivity.
  - reflexivity.
  - vm_compute. reflexivity.
  - vm_compute. reflexivity.
  - reflexivity.
Defined.

(** ** Facts about the heuristics *)

Module TextFacts.
Import ReFacts.

Lemma strip_prefix_self (v t : string) : strip_prefix v (v ++ t) = Some t.
Proof.
  induction v as [|a v IH]; [reflexivity|].
  rewrite append_cons. simpl. by rewrite Ascii.eqb_refl.
Qed.

Lemma str_contains_here (v t : string) : str_contains v (v ++ t) = true.
Proof.
  destruct (v ++ t) as [|a s] eqn:E; simpl; unfold starts_with;
    rewrite <- E, strip_prefix_self; reflexivity.
Qed.

Lemma str_contains_after (v p q : string) :
  str_contains v q = true -> str_contains v (p ++ q) = true.
Proof.
  intros H. induction p as [|a p IH]; [exact H|].
  rewrite append_cons. simpl. rewrite IH. apply orb_true_r.
Qed.

Lemma str_contains_inside (v p q : string) :
  str_contains v (p ++ v ++ q) = true.
Proof. apply str_contains_after, str_contains_here. Qed.

(** A joined list shows each of its elements. *)
Lemma join_shows sep (l : list string) v :
  v ∈ l -> exists p q, str_join sep l = p ++ v ++ q.
Proof.
  induction l as [|x l IH]; intros Hin; [inversion Hin|].
  apply elem_of_cons in Hin as [->|Hin].
  - destruct l as [|y l].
    + exists "", "". simpl. by rewrite append_nil, append_empty.
    + exists "", (sep ++ str_join sep (y :: l)). reflexivity.
  - destruct (IH Hin) as (p & q & Hpq). destruct l as [|y l].
    + inversion Hin.
    + exists (x ++ sep ++ p), q.
      change (str_join sep (x :: y :: l))
        with (x ++ sep ++ str_join sep (y :: l)).
      by rewrite Hpq, !append_assoc.
Qed.

(** Splitting on a comma gives one piece more than there are commas. *)
Lemma split_comma_length cur s :
  length (split_go "," cur s 0) = S (count_char "," s).
Proof.
  revert cur. induction s as [|a s IH]; intros cur; [reflexivity|].
  change (split_go "," cur (String a s) 0)
    with (if match (if Ascii.eqb "," a then Some s else None) with
             | Some _ => true
             | None => false
             end
          then cur :: split_go "," "" s 0
          else split_go "," (cur ++ String a "") s 0).
  change (count_char "," (String a s))
    with ((if Ascii.eqb "," a then 1 else 0) + count_char "," s).
  destruct (Ascii.eqb "," a); simpl; by rewrite IH.
Qed.

Lemma zip_differences_bound v u :
  zip_differences v u <= Nat.min (String.length v) (String.length u).
Proof.
  revert u. induction v as [|a v IH]; intros [|b u]; simpl; try lia.
  specialize (IH u). destruct (Ascii.eqb a b); lia.
Qed.

End TextFacts.

Lemma fold_left_preserves {A B} (f : A -> B -> A) (P : A -> Prop) l a :
  P a -> (forall a b, b ∈ l -> P a -> P (f a b)) -> P (fold_left f l a).
Proof.
  revert a. induction l as [|b l IH]; intros a Ha Hstep; [exact Ha|].
  simpl. apply IH.
  - apply Hstep; [left | exact Ha].
  - intros a' b' Hb'. apply Hstep. by right.
Qed.


Lemma insertion_order_iterates : iterates_set insertion_order.
Proof.
  intros l. split; [apply NoDup_remove_dups|].
  intros x. apply elem_of_remove_dups.
Qed.

Lemma is_similar_spec var undefined_var :
  is_similar var undefined_var = true <->
  var <> undefined_var
  /\ len_distance var undefined_var <= 2
  /\ zip_differences var undefined_var <= 2.
Proof.
  unfold is_similar.
  rewrite !andb_true_iff, negb_true_iff, String.eqb_neq, !Nat.leb_le.
  tauto.
Qed.

Lemma similar_to_spec set_order undefined_var code_context var :
  iterates_set set_order ->
  var ∈ similar_to set_order undefined_var code_context <->
  var ∈ added_variables code_context
  /\ var <> undefined_var
  /\ len_distance var undefined_var <= 2
  /\ zip_differences var undefined_var <= 2.
Proof.
  intros Hset. unfold similar_to, all_variables.
  rewrite list_elem_of_In, filter_In, <- list_elem_of_In.
  rewrite (proj2 (Hset _)), is_similar_spec. tauto.
Qed.

Lemma index_step_cases code_context name content ca idx :
  [name; content] ∈ findall list_pattern code_context ->
  idx ∈ index_matches name code_context ->
  let ca' := index_step name (length (str_split "," content)) ca idx in
  (length (str_split "," content) <= int_of_digits idx
   /\ flagged_by code_context ca')
  \/ (int_of_digits idx < length (str_split "," content) /\ ca' = ca).
Proof.
  intros Hm Hi ca'. subst ca'. unfold index_step.
  destruct (Nat.leb _ _) eqn:E.
  - apply Nat.leb_le in E. left. split; [exact E|].
    exists name, content, idx. auto.
  - apply Nat.leb_gt in E. right. auto.
Qed.

Lemma list_step_keeps code_context (P : ContextAnalysis -> Prop) ca m :
  (forall ca', flagged_by code_context ca' -> P ca') ->
  m ∈ findall list_pattern code_context ->
  P ca -> P (list_step code_context ca m).
Proof.
  intros Hflag Hm Hca. unfold list_step.
  destruct m as [|name [|content [|]]]; try exact Hca.
  apply fold_left_preserves; [exact Hca|].
  intros a idx Hidx Ha.
  destruct (index_step_cases code_context name content a idx Hm Hidx)
    as [[_ H]|[_ H]]; [auto | by rewrite H].
Qed.

(** The analysis of an [IndexError] either names nothing or names an
    offending subscript. *)
Lemma index_analysis_cases code_context :
  index_analysis code_context = no_analysis
  \/ flagged_by code_context (index_analysis code_context).
Proof.
  unfold index_analysis.
  apply (fold_left_preserves (list_step code_context)
           (fun ca => ca = no_analysis \/ flagged_by code_context ca)).
  - by left.
  - intros a m Hm Ha. apply list_step_keeps; auto.
Qed.


Lemma typo_issue_nonempty u : typo_issue u <> "".
Proof. discriminate. Qed.

Lemma index_issue_nonempty i name : index_issue i name <> "".
Proof. discriminate. Qed.

(** An issue named by the heuristics is a non-empty text and comes with
    a fix. *)
Lemma issue_comes_with_fix set_order label message context ca issue :
  analyze_code_context set_order label message context = Some ca ->
  specific_issue ca = Some issue ->
  issue <> "" /\ exists advice, specific_fix ca = Some advice.
Proof.
  unfold analyze_code_context.
  destruct context as [[|a ctx]|]; try discriminate.
  destruct (String.eqb label "NameError");
    [|destruct (String.eqb label "IndexError")]; intros [= <-].
  - unfold name_analysis.
    destruct (search _ _) as [gs|]; [|discriminate].
    destruct (similar_to _ _ _); [discriminate|].
    intros [= <-]. split; [apply typo_issue_nonempty | eauto].
  - destruct (index_analysis_cases (String a ctx)) as [->|H];
      [discriminate|].
    destruct H as (name & content & idx & _ & _ & _ & ->).
    intros [= <-]. split; [apply index_issue_nonempty | eauto].
  - discriminate.
Qed.

(** The solutions of a matched request when the heuristic names an
    issue. *)
Lemma matched_solutions_with_issue set_order error_input label info
  ca issue :
  analyze_code_context set_order label (error_message error_input)
    (code_context error_input) = Some ca ->
  specific_issue ca = Some issue ->
  exists advice ctx,
    specific_fix ca = Some advice
    /\ code_context error_input = Some ctx
    /\ matched_solutions set_order error_input label info
       = {| fix_ := advice;
            explanation := issue;
            confidence := 0.95;
            code_example := "# Based on your specific code:" ++ nl ++ ctx |}
         :: pat_solutions info.
Proof.
  intros Hca Hissue.
  destruct (issue_comes_with_fix _ _ _ _ _ _ Hca Hissue) as (Hne & advice & Hfix).
  unfold matched_solutions. rewrite Hca.
  destruct (code_context error_input) as [[|a ctx]|] eqn:Hctx;
    try discriminate.
  destruct ca as [i f]. simpl in *. subst i f.
  destruct issue as [|b issue]; [done|].
  exists advice, (String a ctx). auto.
Qed.

(** ** The undefined-name heuristic *)

Lemma filter_map_length {A B} (f : B -> bool) (g : A -> B) (l : list A) :
  length (List.filter f (map g l))
  = length (List.filter (fun x => f (g x)) l).
Proof.
  induction l as [|x l IH]; [reflexivity|]. simpl.
  destruct (f (g x)); simpl; by rewrite IH.
Qed.

(** The sum over the zipped strings counts the positions both strings
    have at which they differ. *)
Lemma zip_differences_positional v u :
  zip_differences v u = positional_mismatches v u.
Proof.
  unfold positional_mismatches. revert u.
  induction v as [|a v IH]; intros [|b u]; try reflexivity.
  change (Nat.min (String.length (String a v)) (String.length (String b u)))
    with (S (Nat.min (String.length v) (String.length u))).
  change (seq 0 (S ?n)) with (0 :: seq 1 n).
  rewrite <- seq_shift.
  change (List.filter ?f (0 :: ?l))
    with (if f 0 then 0 :: List.filter f l else List.filter f l).
  change (differ_at (String a v) (String b u) 0)
    with (negb (Ascii.eqb a b)).
  change (zip_differences (String a v) (String b u))
    with ((if Ascii.eqb a b then 0 else 1) + zip_differences v u).
  rewrite IH.
  destruct (Ascii.eqb a b); simpl negb; cbv iota; simpl length;
    rewrite filter_map_length; reflexivity.
Qed.

Lemma len_distance_within v u :
  len_distance v u <= 2 <->
  String.length v <= String.length u + 2
  /\ String.length u <= String.length v + 2.
Proof. unfold len_distance. lia. Qed.

(** C6. For a [NameError] with a snippet, a word of the snippet is among
    the similar names exactly when it differs from the undefined name, its
    length is within 2 of the length of the undefined name (in either
    direction) and at most 2 of the positions the two names share hold
    different characters, with no alignment. When there is such a word,
    the analysis names a possible typo, proposes the first similar name
    and lists them all; for the message about [foo] with the snippet
    defining [foo] and [foob], the solution put in front mentions [foob].
    A word with three differing positions, or three characters longer, is
    not suggested. *)
Theorem similar_names_are_suggested :
  forall set_order,
    iterates_set set_order ->
    (forall message context undefined_var,
       context <> "" ->
       group1 <$> search undefined_var_pattern message = Some undefined_var ->
       (forall var,
          var ∈ similar_to set_order undefined_var context <->
          var ∈ added_variables context
          /\ var <> undefined_var
          /\ String.length var <= String.length undefined_var + 2
          /\ String.length undefined_var <= String.length var + 2
          /\ positional_mismatches var undefined_var <= 2)
       /\ (forall first others,
             similar_to set_order undefined_var context = first :: others ->
             analyze_code_context set_order "NameError" message (Some context)
             = Some {| specific_issue :=
                         Some ("You might have a typo in variable name '"
                               ++ undefined_var ++ "'");
                       specific_fix :=
                         Some ("Did you mean '" ++ first
                               ++ "'? Similar variables found: "
                               ++ str_join ", " (first :: others)) |}))
    /\ (forall json_loads str_field float_field w h,
          exists r s others,
            (analyze_error set_order json_loads str_field float_field w h
               (request foo_message (Some foo_context) None)).1 = inr r
            /\ solutions r = s :: others
            /\ confidence s = 0.95%Q
            /\ explanation s = "You might have a typo in variable name 'foo'"
            /\ str_contains "foob" (fix_ s) = true)
    /\ ("bar" ∈ added_variables far_context
        /\ positional_mismatches "bar" "foo" = 3
        /\ "bar" ∉ similar_to set_order "foo" far_context)
    /\ ("fooooo" ∈ added_variables far_context
        /\ positional_mismatches "fooooo" "foo" = 0
        /\ String.length "fooooo" = String.length "foo" + 3
        /\ "fooooo" ∉ similar_to set_order "foo" far_context)
    /\ analyze_code_context set_order "NameError" foo_message
         (Some far_context)
       = Some {| specific_issue :=
                   Some "You might have a typo in variable name 'foo'";
                 specific_fix :=
                   Some "Did you mean 'foa'? Similar variables found: foa" |}.
Proof.
  intros so Hset.
  assert (Hgeneral : forall message context undefined_var,
    context <> "" ->
    group1 <$> search undefined_var_pattern message = Some undefined_var ->
    forall first others,
      similar_to so undefined_var context = first :: others ->
      analyze_code_context so "NameError" message (Some context)
      = Some {| specific_issue := Some (typo_issue undefined_var);
                specific_fix := Some (typo_fix (first :: others)) |}).
  { intros message context u Hctx Hu first others Hsim.
    destruct context as [|a ctx]; [done|].
    unfold analyze_code_context. simpl String.eqb. cbv iota.
    unfold name_analysis.
    destruct (search undefined_var_pattern message) as [gs|];
      [|discriminate].
    injection Hu as Hu. simpl. rewrite Hu, Hsim. reflexivity. }
  assert (Hiff : forall context u var,
    var ∈ similar_to so u context <->
    var ∈ added_variables context
    /\ var <> u
    /\ String.length var <= String.length u + 2
    /\ String.length u <= String.length var + 2
    /\ positional_mismatches var u <= 2).
  { intros context u var.
    rewrite (similar_to_spec so u context var Hset), len_distance_within,
      zip_differences_positional. tauto. }
  split; [|split; [|split; [|split]]].
  - intros message context u Hctx Hu. split.
    + intros var. apply Hiff.
    + intros first others Hsim.
      by rewrite (Hgeneral message context u Hctx Hu first others Hsim).
  - intros jl sf ff w h.
    assert (Hin : "foob" ∈ similar_to so "foo" foo_context).
    { apply similar_to_spec; [exact Hset|]. split; [|split; [|split]].
      - apply list_elem_of_In; vm_compute; tauto.
      - discriminate.
      - vm_compute. lia.
      - vm_compute. lia. }
    destruct (similar_to so "foo" foo_context) as [|first others] eqn:Hsim;
      [inversion Hin|].
    assert (Hca := Hgeneral foo_message foo_context "foo" ltac:(discriminate)
                     eq_refl first others Hsim).
    destruct (first_match ERROR_PATTERNS foo_message) as [[label info]|] eqn:Hfm;
      [|vm_compute in Hfm; discriminate].
    assert (Hlabel : label = "NameError")
      by (vm_compute in Hfm; congruence).
    subst label.
    destruct (matched_solutions_with_issue so
                (request foo_message (Some foo_context) None) "NameError"
                info _ _ Hca eq_refl) as (advice & ctx & Hfix & _ & Hsols).
    simpl in Hfix. injection Hfix as <-.
    rewrite (handle_matched so jl sf ff w h
               (request foo_message (Some foo_context) None)
               "NameError" info Hfm).
    pose proof (augment_keeps jl sf w h
                  (request foo_message (Some foo_context) None) "NameError"
                  (matched_solutions so
                     (request foo_message (Some foo_context) None)
                     "NameError" info)
                  (pat_concepts info)) as (_ & Hs & _).
    destruct (analyze_with_gemini _ _ _ _ _ _ _ _) as [r h']. simpl in *.
    rewrite Hsols in Hs.
    eexists r, _, _. split; [reflexivity|]. split; [exact Hs|].
    split; [reflexivity|]. split; [reflexivity|].
    change (str_contains "foob" (typo_fix (first :: others)) = true).
    unfold typo_fix.
    destruct (TextFacts.join_shows ", " (first :: others) "foob" Hin)
      as (p & q & ->).
    rewrite <- !ReFacts.append_assoc.
    rewrite (ReFacts.append_assoc _ "foob" q).
    apply TextFacts.str_contains_inside.
  - split; [apply list_elem_of_In; vm_compute; tauto|]. split; [reflexivity|].
    intros H. apply Hiff in H as (_ & _ & _ & _ & H).
    vm_compute in H. lia.
  - split; [apply list_elem_of_In; vm_compute; tauto|]. split; [reflexivity|].
    split; [reflexivity|].
    intros H. apply Hiff in H as (_ & _ & H & _).
    vm_compute in H. lia.
  - assert (Hall : forall x, x ∈ similar_to so "foo" far_context <->
                             x = "foa").
    { intros x. rewrite Hiff. split.
      - intros (Hin & Hne & Hl1 & Hl2 & Hm).
        assert (Hcases : x ∈ ["bar"; "foo"; "fooooo"; "foa"])
          by exact Hin.
        repeat (apply elem_of_cons in Hcases as [->|Hcases]);
          try reflexivity; try done;
          try (vm_compute in Hm; lia); try (vm_compute in Hl1; lia).
        inversion Hcases.
      - intros ->. split; [apply list_elem_of_In; vm_compute; tauto|].
        split; [discriminate|]. repeat split; vm_compute; lia. }
    assert (Hnodup : NoDup (similar_to so "foo" far_context)).
    { apply NoDup_ListNoDup, List.NoDup_filter, NoDup_ListNoDup, Hset. }
    destruct (similar_to so "foo" far_context) as [|first others] eqn:Hsim.
    { pose proof (proj2 (Hall "foa") eq_refl) as Hin. inversion Hin. }
    assert (first = "foa") as -> by (apply Hall; left).
    assert (others = []) as ->.
    { destruct others as [|y others]; [reflexivity|].
      assert (y = "foa") as -> by (apply Hall; right; left).
      apply NoDup_cons in Hnodup as [Hnot _]. exfalso. apply Hnot. left. }
    rewrite (Hgeneral foo_message far_context "foo" ltac:(discriminate)
               eq_refl "foa" [] Hsim).
    reflexivity.
Qed.

Lemma similar_names_are_suggested_witness :
  analyze_code_context insertion_order "NameError" foo_message
    (Some foo_context)
  = Some {| specific_issue :=
              Some ("You might have a typo in variable name '"
                    ++ "foo" ++ "'");
            specific_fix :=
              Some ("Did you mean '" ++ "1"
                    ++ "'? Similar variables found: "
                    ++ str_join ", " ["1"; "foob"; "2"]) |}.
Proof.
  apply (proj1 (similar_names_are_suggested insertion_order
                  insertion_order_iterates) foo_message foo_context "foo").
  - discriminate.
  - vm_compute. reflexivity.
  - vm_compute. reflexivity.
Defined.

(** ** The out-of-range heuristic *)



(** C9. A list declared with empty brackets is estimated at one item,
    since splitting the empty text on commas gives one empty piece: the
    subscript [0] of its name is never what the analysis names. Any issue
    the analysis names has an index that is at least the estimate, which
    is at least 1. *)
Theorem empty_list_is_estimated_at_one :
  length (str_split "," "") = 1
  /\ (forall name ca idx,
        int_of_digits idx = 0 ->
        index_step name (length (str_split "," "")) ca idx = ca)
  /\ (forall set_order message context ca,
        analyze_code_context set_order "IndexError" message (Some context)
          = Some ca ->
        specific_issue ca = None
        \/ exists name content idx,
             [name; content] ∈ findall list_pattern context
             /\ idx ∈ index_matches name context
             /\ 1 <= length (str_split "," content) <= int_of_digits idx
             /\ specific_issue ca
                = Some (index_issue (int_of_digits idx) name))
  /\ ["xs"; ""] ∈ findall list_pattern empty_list_context
  /\ "0" ∈ index_matches "xs" empty_list_context
  /\ (forall set_order,
        analyze_code_context set_order "IndexError"
          "list index out of range" (Some empty_list_context)
        = Some no_analysis).
Proof.
  split; [reflexivity|]. split; [|split; [|split; [|split]]].
  - intros name ca idx H0. unfold index_step. rewrite H0. reflexivity.
  - intros so message context ca.
    destruct context as [|a ctx]; [discriminate|].
    unfold analyze_code_context. simpl String.eqb. cbv iota.
    intros [= <-].
    destruct (index_analysis_cases (String a ctx)) as [->|H];
      [by left|right].
    destruct H as (name & content & idx & Hm & Hi & Hle & ->).
    exists name, content, idx. repeat (split; [assumption|]).
    split; [|reflexivity]. split; [|exact Hle].
    unfold str_split. rewrite TextFacts.split_comma_length. lia.
  - vm_compute. apply list_elem_of_here.
  - vm_compute. apply list_elem_of_here.
  - intros so. vm_compute. reflexivity.
Qed.

Lemma empty_list_is_estimated_at_one_witness :
  index_step "xs" (length (str_split "," ""))
    no_analysis "0" = no_analysis.
Proof.
  apply (proj1 (proj2 empty_list_is_estimated_at_one) "xs" no_analysis "0").
  reflexivity.
Defined.

(** ** The solutions of a matched request *)

Lemma matched_solutions_cases set_order error_input label info :
  matched_solutions set_order error_input label info = pat_solutions info
  \/ exists s,
       matched_solutions set_order error_input label info
       = s :: pat_solutions info.
Proof.
  unfold matched_solutions.
  destruct (code_context error_input) as [[|a ctx]|]; auto.
  destruct (analyze_code_context _ _ _ _) as [[[[|b issue]|] advice]|];
    eauto.
Qed.

Lemma catalog_solutions_nonempty label info :
  (label, info) ∈ ERROR_PATTERNS -> pat_solutions info <> [].
Proof.
  intros Hin.
  repeat (apply elem_of_cons in Hin as [[= -> ->]|Hin]; [discriminate|]).
  inversion Hin.
Qed.

(** C8. The response to a request that matches a catalog entry has at
    least one solution; when the heuristic names an issue for the supplied
    context, the solution made from it stands first in the list, before
    the solutions of the entry, with confidence 0.95. *)
Theorem context_solution_comes_first :
  forall set_order json_loads str_field float_field w h error_input
         label info,
    first_match ERROR_PATTERNS (error_message error_input)
      = Some (label, info) ->
    exists r,
      (analyze_error set_order json_loads str_field float_field
                     w h error_input).1 = inr r
      /\ solutions r <> []
      /\ (forall ca issue,
            analyze_code_context set_order label
              (error_message error_input) (code_context error_input)
              = Some ca ->
            specific_issue ca = Some issue ->
            exists s,
              solutions r = s :: pat_solutions info
              /\ solutions r !! 0 = Some s
              /\ confidence s = 0.95%Q
              /\ explanation s = issue
              /\ specific_fix ca = Some (fix_ s)).
Proof.
  intros so jl sf ff w h inp label info Hfm.
  rewrite (handle_matched so jl sf ff w h inp label info Hfm).
  pose proof (augment_keeps jl sf w h inp label
                (matched_solutions so inp label info)
                (pat_concepts info)) as (_ & Hs & _).
  destruct (analyze_with_gemini _ _ _ _ _ _ _ _) as [r h']. simpl in Hs.
  exists r. split; [reflexivity|]. split.
  - rewrite Hs.
    pose proof (catalog_solutions_nonempty label info
                  (proj1 (first_match_Some _ _ _ _ Hfm))) as Hne.
    destruct (matched_solutions_cases so inp label info) as [->|[s ->]];
      [exact Hne | discriminate].
  - intros ca issue Hca Hissue.
    destruct (matched_solutions_with_issue so inp label info ca issue
                Hca Hissue) as (advice & ctx & Hfix & _ & Hsols).
    rewrite Hs, Hsols. eexists. split; [reflexivity|]. auto.
Qed.

Lemma context_solution_comes_first_witness :
  exists r,
    (analyze_error insertion_order no_json strict_str strict_float
       (offline "2025-01-01T00:00:00") ∅
       (request "list index out of range" (Some my_list_context) None)).1
      = inr r
    /\ solutions r <> []
    /\ (forall ca issue,
          analyze_code_context insertion_order "IndexError"
            "list index out of range" (Some my_list_context) = Some ca ->
          specific_issue ca = Some issue ->
          exists s,
            solutions r = s :: [ {| fix_ := "Check that the index is within the bounds of the list";
                                    explanation := "This error occurs when you try to access an index that doesn't exist in the list.";
                                    confidence := 0.95;
                                    code_example := IndexError_example |} ]
            /\ solutions r !! 0 = Some s
            /\ confidence s = 0.95%Q
            /\ explanation s = issue
            /\ specific_fix ca = Some (fix_ s)).
Proof.
  exact (context_solution_comes_first insertion_order no_json strict_str
           strict_float (offline "2025-01-01T00:00:00") ∅
           (request "list index out of range" (Some my_list_context) None)
           "IndexError" _ eq_refl).
Defined.

(** ** Similarity counts the overlap only *)

(** C10, as the code has it: the undefined name itself agrees with the
    undefined name on their overlap and has its length, and is not among
    the similar names. *)
Lemma undefined_name_is_not_similar :
  group1 <$> search undefined_var_pattern foo_message = Some "foo"
  /\ "foo" ∈ added_variables foo_context
  /\ zip_differences "foo" "foo" = 0
  /\ len_distance "foo" "foo" <= 2
  /\ "foo" ∉ similar_to insertion_order "foo" foo_context.
Proof.
  split; [vm_compute; reflexivity|].
  split; [vm_compute; apply list_elem_of_here|].
  split; [reflexivity|]. split; [vm_compute; lia|].
  intros H. apply similar_to_spec in H; [|apply insertion_order_iterates].
  destruct H as (_ & Hne & _). by apply Hne.
Qed.

(** C10, amended. Differences are counted over the common length of the
    two zipped strings only, so every word of the snippet other than the
    undefined name itself that agrees with the undefined name on their
    overlap and whose length is within 2 of its length is similar; short
    unrelated words qualify too: for the undefined [foo], the word [1] of
    the snippet, with one differing position and a length difference of
    2. *)
Theorem overlap_decides_similarity :
  forall set_order,
    iterates_set set_order ->
    (forall v u,
       zip_differences v u <= Nat.min (String.length v) (String.length u))
    /\ (forall context undefined_var var,
          var ∈ added_variables context ->
          var <> undefined_var ->
          zip_differences var undefined_var = 0 ->
          len_distance var undefined_var <= 2 ->
          var ∈ similar_to set_order undefined_var context)
    /\ (zip_differences "1" "foo" = 1
        /\ len_distance "1" "foo" = 2
        /\ "1" ∈ added_variables foo_context
        /\ "1" ∈ similar_to set_order "foo" foo_context).
Proof.
  intros so Hset. split; [apply TextFacts.zip_differences_bound|]. split.
  - intros context u var Hin Hne Hzip Hlen.
    apply similar_to_spec; [exact Hset|]. repeat split; auto. lia.
  - split; [reflexivity|]. split; [reflexivity|].
    assert (Hin : "1" ∈ added_variables foo_context)
      by (vm_compute; set_solver).
    split; [exact Hin|].
    apply similar_to_spec; [exact Hset|]. split; [exact Hin|].
    split; [discriminate|]. split; vm_compute; lia.
Qed.

Lemma overlap_decides_similarity_witness :
  "foob" ∈ similar_to insertion_order "foo" foo_context.
Proof.
  apply (proj1 (proj2 (overlap_decides_similarity insertion_order
                         insertion_order_iterates))
           foo_context "foo" "foob").
  - vm_compute. set_solver.
  - discriminate.
  - vm_compute. reflexivity.
  - vm_compute. lia.
Defined.

(** * Further properties *)

(** ** The history store *)

Lemma patterns_history json_loads w h label message context project :
  (analyze_error_patterns json_loads w h label message context project).2
  = if truthy project
    then record_error w h (default "" project) label message context
    else h.
Proof.
  unfold analyze_error_patterns.
  destruct project as [[|a p]|]; try reflexivity. simpl.
  destruct (Nat.ltb 1 _); [|reflexivity].
  destruct (requested_insights _ _ _ _) as [[cc re]|]; reflexivity.
Qed.

Lemma matched_history set_order json_loads str_field float_field w h
  error_input label info :
  first_match ERROR_PATTERNS (error_message error_input)
    = Some (label, info) ->
  (analyze_error set_order json_loads str_field float_field
                 w h error_input).2
  = if truthy (GEMINI_API_KEY w) && truthy (project_id error_input)
    then record_error w h (default "" (project_id error_input)) label
                      (error_message error_input) (code_context error_input)
    else h.
Proof.
  intros Hfm.
  rewrite (handle_matched set_order json_loads str_field float_field
             w h error_input label info Hfm).
  unfold analyze_with_gemini, setup_gemini.
  destruct (truthy (GEMINI_API_KEY w)); [|reflexivity].
  pose proof (patterns_history json_loads w h label
                (error_message error_input) (code_context error_input)
                (project_id error_input)) as H.
  destruct (analyze_error_patterns _ _ _ _ _ _ _) as [stats h'].
  simpl in *. exact H.
Qed.

Lemma records_elsewhere w h project label message context p e :
  p <> project \/ e <> label ->
  records_of (record_error w h project label message context) p e
  = records_of h p e.
Proof.
  intros Hne. unfold record_error, records_of at 1.
  destruct (decide (p = project)) as [->|Hp].
  - destruct Hne as [Hne|Hne]; [done|].
    rewrite lookup_insert_eq. simpl. by rewrite lookup_insert_ne.
  - by rewrite lookup_insert_ne.
Qed.

(** X1. A request that matches a catalog entry leaves the records of
    every other project, and of every other error type of its project,
    as they were. *)
Theorem other_records_untouched :
  forall set_order json_loads str_field float_field w h error_input
         label info p e,
    first_match ERROR_PATTERNS (error_message error_input)
      = Some (label, info) ->
    project_id error_input <> Some p \/ label <> e ->
    records_of (analyze_error set_order json_loads str_field float_field
                              w h error_input).2 p e
    = records_of h p e.
Proof.
  intros so jl sf ff w h inp label info p e Hfm Hne.
  rewrite (matched_history so jl sf ff w h inp label info Hfm).
  destruct (truthy (GEMINI_API_KEY w) && truthy (project_id inp)) eqn:E;
    [|reflexivity].
  apply andb_prop in E as [_ Hp].
  destruct (project_id inp) as [[|a q]|]; try discriminate.
  apply records_elsewhere. simpl.
  destruct Hne as [Hne|Hne]; [left | right; congruence].
  intros ->. by apply Hne.
Qed.

Lemma other_records_untouched_witness :
  records_of (analyze_error insertion_order no_json strict_str strict_float
                (offline "2025-01-01T10:00:00")
                {[ "blog" := {[ "IndexError" :=
                     [ {| timestamp := "2024-12-31T09:00:00";
                          rec_error_message := "list index out of range";
                          rec_code_context := None |} ] ]} ]}
                (request "list index out of range" None (Some "shop"))).2
             "blog" "IndexError"
  = records_of ({[ "blog" := {[ "IndexError" :=
                     [ {| timestamp := "2024-12-31T09:00:00";
                          rec_error_message := "list index out of range";
                          rec_code_context := None |} ] ]} ]} : History)
               "blog" "IndexError".
Proof.
  eapply (other_records_untouched insertion_order no_json strict_str
            strict_float (offline "2025-01-01T10:00:00") _
            (request "list index out of range" None (Some "shop"))
            "IndexError" _ "blog" "IndexError").
  - vm_compute. reflexivity.
  - left. discriminate.
Defined.

(** X2. The history only grows: after a request that matches a catalog
    entry, the records of every project and error type start with the
    records there were, and at most one record has been added. *)
Theorem history_only_grows :
  forall set_order json_loads str_field float_field w h error_input
         label info p e,
    first_match ERROR_PATTERNS (error_message error_input)
      = Some (label, info) ->
    let after :=
      records_of (analyze_error set_order json_loads str_field float_field
                                w h error_input).2 p e in
    records_of h p e `prefix_of` after
    /\ length after <= S (length (records_of h p e)).
Proof.
  intros so jl sf ff w h inp label info p e Hfm after. subst after.
  rewrite (matched_history so jl sf ff w h inp label info Hfm).
  destruct (truthy (GEMINI_API_KEY w) && truthy (project_id inp));
    [|split; [reflexivity | lia]].
  destruct (decide (p = default "" (project_id inp) /\ e = label))
    as [[-> ->]|Hne].
  - rewrite records_after_record_error. split.
    + by apply prefix_app_r.
    + rewrite length_app. simpl. lia.
  - rewrite records_elsewhere; [split; [reflexivity | lia]|].
    destruct (decide (p = default "" (project_id inp))); [right|left];
      naive_solver.
Qed.

Lemma history_only_grows_witness :
  let after :=
    records_of (analyze_error insertion_order no_json strict_str
                  strict_float (offline "2025-01-01T10:00:00") ∅
                  (request "list index out of range" None (Some "shop"))).2
               "shop" "IndexError" in
  records_of (∅ : History) "shop" "IndexError" `prefix_of` after
  /\ length after <= S (length (records_of (∅ : History) "shop" "IndexError")).
Proof.
  eapply (history_only_grows insertion_order no_json strict_str
            strict_float (offline "2025-01-01T10:00:00") ∅
            (request "list index out of range" None (Some "shop"))
            "IndexError" _ "shop" "IndexError").
  vm_compute. reflexivity.
Defined.

(** X3. A request without a project identifier (absent or empty) that
    matches a catalog entry records nothing, and its statistics have no
    field set. *)
Theorem no_project_no_record :
  forall set_order json_loads str_field float_field w h error_input
         label info,
    first_match ERROR_PATTERNS (error_message error_input)
      = Some (label, info) ->
    truthy (project_id error_input) = false ->
    exists r,
      analyze_error set_order json_loads str_field float_field
                    w h error_input = (inr r, h)
      /\ statistics r = Some empty_statistics.
Proof.
  intros so jl sf ff w h inp label info Hfm Hp.
  rewrite (handle_matched so jl sf ff w h inp label info Hfm).
  unfold analyze_with_gemini, analyze_error_patterns.
  destruct (setup_gemini w); [|eexists; split; reflexivity].
  destruct (project_id inp) as [[|a p]|]; try discriminate;
    eexists; split; reflexivity.
Qed.

Lemma no_project_no_record_witness :
  exists r,
    analyze_error insertion_order no_json strict_str strict_float
      (offline "2025-01-01T10:00:00") ∅
      (request "list index out of range" None (Some ""))
    = (inr r, ∅)
    /\ statistics r = Some empty_statistics.
Proof.
  eapply (no_project_no_record insertion_order no_json strict_str
            strict_float (offline "2025-01-01T10:00:00") ∅
            (request "list index out of range" None (Some ""))
            "IndexError").
  - vm_compute. reflexivity.
  - reflexivity.
Defined.

(** X4. What is stored, the frequency and the last occurrence do not
    depend on the AI service nor on the JSON decoder: two processes with
    the same clock reading compute the same ones; only the two insight
    fields can differ. *)
Theorem counts_ignore_service :
  forall json_loads json_loads' w w' h label message context project,
    now_isoformat w = now_isoformat w' ->
    let a := analyze_error_patterns json_loads w h label message context
               project in
    let b := analyze_error_patterns json_loads' w' h label message context
               project in
    a.2 = b.2
    /\ frequency a.1 = frequency b.1
    /\ last_occurrence a.1 = last_occurrence b.1.
Proof.
  intros jl jl' w w' h label message context project Hnow a b.
  subst a b. unfold analyze_error_patterns, record_error.
  destruct project as [[|c p]|]; try (repeat split; reflexivity).
  rewrite Hnow.
  destruct (Nat.ltb 1 _); [|repeat split; reflexivity].
  destruct (requested_insights jl _ _ _) as [[cc re]|];
    destruct (requested_insights jl' _ _ _) as [[cc' re']|];
    repeat split; reflexivity.
Qed.

Lemma counts_ignore_service_witness :
  let a := analyze_error_patterns no_json (offline "2025-01-01T10:00:00") ∅
             "KeyError" "KeyError: 'k'" None (Some "shop") in
  let b := analyze_error_patterns sample_json
             (classifying "2025-01-01T10:00:00") ∅
             "KeyError" "KeyError: 'k'" None (Some "shop") in
  a.2 = b.2
  /\ frequency a.1 = frequency b.1
  /\ last_occurrence a.1 = last_occurrence b.1.
Proof.
  apply (counts_ignore_service no_json sample_json
           (offline "2025-01-01T10:00:00")
           (classifying "2025-01-01T10:00:00") ∅
           "KeyError" "KeyError: 'k'" None (Some "shop")).
  reflexivity.
Defined.

(** X5. On the first occurrence of an error type in a project the service
    is not asked for insights: the statistics are frequency 1 with no last
    occurrence and no insight field, whatever the service would reply. *)
Theorem first_occurrence_statistics :
  forall json_loads w h label message context project,
    project <> "" ->
    records_of h project label = [] ->
    (analyze_error_patterns json_loads w h label message context
                            (Some project)).1
    = {| frequency := Some 1;
         common_contexts := None;
         related_errors := None;
         last_occurrence := None |}.
Proof.
  intros jl w h label message context project Hne Hempty.
  destruct project as [|a p]; [done|].
  unfold analyze_error_patterns.
  rewrite records_after_record_error, Hempty. reflexivity.
Qed.

Lemma first_occurrence_statistics_witness :
  (analyze_error_patterns sample_json (classifying "2025-01-01T10:00:00") ∅
     "KeyError" "KeyError: 'k'" None (Some "shop")).1
  = {| frequency := Some 1;
       common_contexts := None;
       related_errors := None;
       last_occurrence := None |}.
Proof.
  apply (first_occurrence_statistics sample_json
           (classifying "2025-01-01T10:00:00") ∅
           "KeyError" "KeyError: 'k'" None "shop").
  - discriminate.
  - reflexivity.
Defined.

Lemma last_five_recent (l : list HistoryRecord) :
  last_five l `suffix_of` l /\ length (last_five l) = Nat.min 5 (length l).
Proof.
  unfold last_five. destruct (Nat.ltb 5 (length l)) eqn:E.
  - apply Nat.ltb_lt in E. split; [apply suffix_drop|].
    rewrite length_drop. lia.
  - apply Nat.ltb_ge in E. split; [reflexivity | lia].
Qed.

Lemma statistics_depend_on_one_prompt json_loads w w' h label message
  context project :
  now_isoformat w = now_isoformat w' ->
  let records :=
    records_of (record_error w h project label message context)
               project label in
  let ask := PatternsPrompt (length records) label (last_five records) in
  generate_content w ask = generate_content w' ask ->
  analyze_error_patterns json_loads w h label message context (Some project)
  = analyze_error_patterns json_loads w' h label message context
                           (Some project).
Proof.
  intros Hnow records ask Hask.
  unfold analyze_error_patterns.
  destruct project as [|a p]; [reflexivity|].
  assert (Hrec : record_error w' h (String a p) label message context
                 = record_error w h (String a p) label message context)
    by (unfold record_error; by rewrite Hnow).
  rewrite Hrec. fold records.
  destruct (Nat.ltb 1 (length records)); [|reflexivity].
  unfold requested_insights. fold ask. by rewrite Hask.
Qed.

(** X6. The statistics step consults the service with one prompt at
    most, which holds the number of records and the five most recent
    records only: two processes whose services agree on that prompt
    compute the same statistics and history. *)
Theorem insights_prompt_has_last_five :
  forall json_loads w w' h label message context project,
    now_isoformat w = now_isoformat w' ->
    let records :=
      records_of (record_error w h project label message context)
                 project label in
    let ask := PatternsPrompt (length records) label (last_five records) in
    generate_content w ask = generate_content w' ask ->
    (analyze_error_patterns json_loads w h label message context
                            (Some project)
     = analyze_error_patterns json_loads w' h label message context
                              (Some project))
    /\ last_five records `suffix_of` records
    /\ length (last_five records) = Nat.min 5 (length records).
Proof.
  intros jl w w' h label message context project Hnow records ask Hask.
  split; [|apply last_five_recent].
  by apply statistics_depend_on_one_prompt.
Qed.

Lemma insights_prompt_has_last_five_witness :
  let records :=
    records_of (record_error (offline "2025-01-01T10:00:00") ∅ "shop"
                  "KeyError" "KeyError: 'k'" None) "shop" "KeyError" in
  (analyze_error_patterns sample_json (offline "2025-01-01T10:00:00") ∅
     "KeyError" "KeyError: 'k'" None (Some "shop")
   = analyze_error_patterns sample_json
       (classifying "2025-01-01T10:00:00") ∅
       "KeyError" "KeyError: 'k'" None (Some "shop"))
  /\ last_five records `suffix_of` records
  /\ length (last_five records) = Nat.min 5 (length records).
Proof.
  apply (insights_prompt_has_last_five sample_json
           (offline "2025-01-01T10:00:00")
           (classifying "2025-01-01T10:00:00") ∅
           "KeyError" "KeyError: 'k'" None "shop").
  - reflexivity.
  - reflexivity.
Defined.

(** ** Learning resources *)

Lemma first_three_length v items :
  first_three v = Some items -> length items <= 3.
Proof.
  destruct v; try discriminate; intros [= <-]; rewrite length_take; lia.
Qed.

(** X7. A response of [analyze_with_gemini] always has its learning
    resources and statistics set, and never more than three learning
    resources, however many the service lists. *)
Theorem at_most_three_resources :
  forall json_loads str_field w h error_input label sols topics,
    exists resources stats,
      learning_resources
        (analyze_with_gemini json_loads str_field w h error_input
                             label sols topics).1 = Some resources
      /\ statistics
           (analyze_with_gemini json_loads str_field w h error_input
                                label sols topics).1 = Some stats
      /\ length resources <= 3.
Proof.
  intros jl sf w h inp label sols topics. unfold analyze_with_gemini.
  destruct (setup_gemini w).
  - destruct (analyze_error_patterns _ _ _ _ _ _ _) as [stats h'].
    eexists _, _. split; [reflexivity|]. split; [reflexivity|].
    unfold get_learning_resources, requested_resources.
    destruct (generate_content w _) as [content|]; [|simpl; lia].
    simpl. destruct (extract_json content) as [text|]; [|simpl; lia].
    simpl. destruct (jl text) as [v|]; [|simpl; lia].
    simpl. destruct (first_three v) as [items|] eqn:E; [|simpl; lia].
    simpl. destruct (mapM _ items) as [rs|] eqn:Em; [|simpl; lia].
    apply length_mapM in Em. apply first_three_length in E. lia.
  - eexists _, _. split; [reflexivity|]. split; [reflexivity|]. simpl. lia.
Qed.

(** ** The credential *)

(** X8. An empty credential is refused like a missing one: the service
    is not called, a request that matches a catalog entry gets the
    degraded response and records nothing, and a request that matches no
    entry fails with the 404. *)
Theorem empty_credential_is_refused :
  forall set_order json_loads str_field float_field w h error_input,
    GEMINI_API_KEY w = Some "" ->
    analyze_error set_order json_loads str_field float_field
                  w h error_input
    = match first_match ERROR_PATTERNS (error_message error_input) with
      | Some (label, info) =>
          (inr (degraded_response label
                  (matched_solutions set_order error_input label info)
                  (pat_concepts info)), h)
      | None => (inl not_recognized, h)
      end.
Proof.
  intros so jl sf ff w h inp Hkey.
  destruct (first_match ERROR_PATTERNS (error_message inp))
    as [[label info]|] eqn:Hfm.
  - rewrite (handle_matched so jl sf ff w h inp label info Hfm).
    unfold analyze_with_gemini, setup_gemini. rewrite Hkey. reflexivity.
  - rewrite (handle_unmatched so jl sf ff w h inp Hfm).
    unfold classification, setup_gemini. rewrite Hkey. reflexivity.
Qed.

Lemma empty_credential_is_refused_witness :
  analyze_error insertion_order sample_json strict_str strict_float
    {| GEMINI_API_KEY := Some "";
       generate_content := generate_content (classifying "");
       now_isoformat := "2025-01-01T10:00:00" |}
    ∅ (request "segmentation fault" None (Some "shop"))
  = (inl not_recognized, ∅).
Proof.
  exact (empty_credential_is_refused insertion_order sample_json strict_str
           strict_float
           {| GEMINI_API_KEY := Some "";
              generate_content := generate_content (classifying "");
              now_isoformat := "2025-01-01T10:00:00" |}
           ∅ (request "segmentation fault" None (Some "shop")) eq_refl).
Defined.

(** ** Fence stripping *)

Module FenceFacts.
Import ReFacts TextFacts.

Lemma split_go_nonempty sep cur s k : 1 <= length (split_go sep cur s k).
Proof.
  revert cur k. induction s as [|a s IH]; intros cur k; simpl; [lia|].
  destruct k; [|apply IH].
  destruct (starts_with sep (String a s)); [simpl; lia | apply IH].
Qed.

Lemma split_go_found sep cur s :
  sep <> "" -> str_contains sep s = true ->
  2 <= length (split_go sep cur s 0).
Proof.
  intros Hsep. revert cur. induction s as [|a s IH]; intros cur H.
  - destruct sep; [done | discriminate].
  - change (split_go sep cur (String a s) 0)
      with (if starts_with sep (String a s)
            then cur :: split_go sep "" s (String.length sep - 1)
            else split_go sep (cur ++ String a "") s 0).
    change (str_contains sep (String a s))
      with (starts_with sep (String a s) || str_contains sep s) in H.
    destruct (starts_with sep (String a s)).
    + pose proof (split_go_nonempty sep "" s (String.length sep - 1)).
      simpl. lia.
    + apply IH. exact H.
Qed.

Lemma split_go_skip sep cur t rest :
  split_go sep cur (t ++ rest) (String.length t) = split_go sep cur rest 0.
Proof.
  induction t as [|a t IH]; [reflexivity|].
  rewrite append_cons. exact IH.
Qed.

Lemma split_go_absent sep cur s :
  str_contains sep s = false -> split_go sep cur s 0 = [cur ++ s].
Proof.
  revert cur. induction s as [|a s IH]; intros cur H.
  - by rewrite append_empty.
  - change (str_contains sep (String a s))
      with (starts_with sep (String a s) || str_contains sep s) in H.
    apply orb_false_elim in H as [Hhere Hlater].
    change (split_go sep cur (String a s) 0)
      with (if starts_with sep (String a s)
            then cur :: split_go sep "" s (String.length sep - 1)
            else split_go sep (cur ++ String a "") s 0).
    rewrite Hhere, (IH _ Hlater), append_assoc. reflexivity.
Qed.

(** The text before the first separator is the first piece, when no
    character of it is the first character of the separator. *)
Lemma split_go_first c sep cur before rest :
  string_forall (fun a => negb (Ascii.eqb c a)) before = true ->
  split_go (String c sep) cur (before ++ String c sep ++ rest) 0
  = (cur ++ before) :: split_go (String c sep) "" rest 0.
Proof.
  revert cur. induction before as [|a b IH]; intros cur H.
  - rewrite append_nil, append_empty, append_cons.
    change (split_go (String c sep) cur (String c (sep ++ rest)) 0)
      with (if starts_with (String c sep) (String c (sep ++ rest))
            then cur :: split_go (String c sep) "" (sep ++ rest)
                          (String.length (String c sep) - 1)
            else split_go (String c sep) (cur ++ String c "")
                          (sep ++ rest) 0).
    unfold starts_with. rewrite <- append_cons, strip_prefix_self.
    replace (String.length (String c sep) - 1) with (String.length sep)
      by (simpl; lia).
    by rewrite split_go_skip.
  - simpl in H. apply andb_prop in H as [Ha Hb].
    rewrite append_cons.
    change (split_go (String c sep) cur
              (String a (b ++ String c sep ++ rest)) 0)
      with (if starts_with (String c sep)
                 (String a (b ++ String c sep ++ rest))
            then cur :: split_go (String c sep) ""
                          (b ++ String c sep ++ rest)
                          (String.length (String c sep) - 1)
            else split_go (String c sep) (cur ++ String a "")
                          (b ++ String c sep ++ rest) 0).
    unfold starts_with. simpl strip_prefix.
    apply negb_true_iff in Ha. rewrite Ha.
    rewrite (IH _ Hb), append_assoc. reflexivity.
Qed.

Lemma starts_with_shorter p q s :
  starts_with (p ++ q) s = true -> starts_with p s = true.
Proof.
  unfold starts_with. revert s. induction p as [|a p IH]; intros s H.
  - reflexivity.
  - rewrite append_cons in H. destruct s as [|b s]; [discriminate|].
    simpl in *. destruct (Ascii.eqb a b); [auto | discriminate].
Qed.

Lemma str_contains_shorter p q s :
  str_contains (p ++ q) s = true -> str_contains p s = true.
Proof.
  induction s as [|a s IH]; intros H.
  - apply orb_prop in H as [H|H]; [|discriminate].
    simpl. by rewrite (starts_with_shorter p q "" H).
  - change (str_contains (p ++ q) (String a s))
      with (starts_with (p ++ q) (String a s) || str_contains (p ++ q) s)
      in H.
    change (str_contains p (String a s))
      with (starts_with p (String a s) || str_contains p s).
    apply orb_prop in H as [H|H].
    + by rewrite (starts_with_shorter p q _ H).
    + rewrite (IH H). apply orb_true_r.
Qed.

End FenceFacts.

(** X9. The fence stripping never raises. A text without a triple
    backtick is kept as it is; from a text with a fence tagged [json],
    what stands between the tag and the closing fence is taken and
    stripped of the surrounding whitespace. *)
Theorem fence_stripping :
  (forall content, is_Some (extract_json content))
  /\ (forall content,
        str_contains "```" content = false ->
        extract_json content = Some content)
  /\ (forall before middle after,
        string_forall (fun a => negb (Ascii.eqb "`" a)) before = true ->
        string_forall (fun a => negb (Ascii.eqb "`" a)) middle = true ->
        str_contains "```json" (middle ++ "```" ++ after) = false ->
        extract_json (before ++ "```json" ++ middle ++ "```" ++ after)
        = Some (str_strip middle)).
Proof.
  assert (Hfenced : forall opening content,
    opening <> "" -> str_contains opening content = true ->
    is_Some (fenced opening content)).
  { intros opening content Hne H. unfold fenced, str_split.
    pose proof (FenceFacts.split_go_found opening "" content Hne H) as Hlen.
    destruct (lookup_lt_is_Some_2 (split_go opening "" content 0) 1
                ltac:(lia)) as [inner ->].
    simpl.
    pose proof (FenceFacts.split_go_nonempty "```" "" inner 0) as Hlen'.
    destruct (lookup_lt_is_Some_2 (split_go "```" "" inner 0) 0
                ltac:(lia)) as [body ->].
    simpl. eauto. }
  split; [|split].
  - intros content. unfold extract_json.
    destruct (str_contains "```json" content) eqn:Hj;
      [by apply Hfenced|].
    destruct (str_contains "```" content) eqn:Hb;
      [by apply Hfenced | eauto].
  - intros content Hb. unfold extract_json. rewrite Hb.
    destruct (str_contains "```json" content) eqn:Hj; [|reflexivity].
    apply (FenceFacts.str_contains_shorter "```" "json") in Hj. congruence.
  - intros before middle after Hbefore Hmiddle Hafter.
    unfold extract_json.
    rewrite TextFacts.str_contains_inside.
    unfold fenced, str_split.
    rewrite (FenceFacts.split_go_first "`" "``json" "" before _ Hbefore).
    rewrite (FenceFacts.split_go_absent _ _ _ Hafter).
    simpl lookup. simpl mbind. rewrite ReFacts.append_nil.
    rewrite (FenceFacts.split_go_first "`" "``" "" middle _ Hmiddle).
    reflexivity.
Qed.

Lemma fence_stripping_witness :
  extract_json ("Here it is:" ++ nl ++ "```json" ++ (nl ++ "{classified}" ++ nl)
                ++ "```" ++ nl)
  = Some (str_strip (nl ++ "{classified}" ++ nl)).
Proof.
  apply (proj2 (proj2 fence_stripping) ("Here it is:" ++ nl)
           (nl ++ "{classified}" ++ nl) nl).
  - vm_compute. reflexivity.
  - vm_compute. reflexivity.
  - vm_compute. reflexivity.
Defined.

(** ** What the patterns read *)

Module MatchFacts.
Import ReFacts.

Lemma first_some_Some {A B} (f : A -> option B) l y :
  first_some f l = Some y -> exists x, In x l /\ f x = Some y.
Proof.
  induction l as [|x l IH]; simpl; [discriminate|].
  destruct (f x) as [z|] eqn:E.
  - intros [= <-]. eauto.
  - intros H. destruct (IH H) as (x' & Hin & Hx'). eauto.
Qed.

Lemma strip_prefix_Some p s rest :
  strip_prefix p s = Some rest -> s = p ++ rest.
Proof.
  revert s. induction p as [|a p IH]; intros s H; simpl in H.
  - by injection H as ->.
  - destruct s as [|b s]; [discriminate|].
    destruct (Ascii.eqb_spec a b) as [->|]; [|discriminate].
    rewrite append_cons. f_equal. auto.
Qed.

Lemma take_drop n s : s = str_take n s ++ str_drop n s.
Proof.
  revert s. induction n as [|n IH]; intros [|a s]; try reflexivity.
  simpl. rewrite append_cons. f_equal. apply IH.
Qed.

Lemma take_within_run c n s :
  n <= run c s ->
  String.length (str_take n s) = n
  /\ string_forall (in_class c) (str_take n s) = true.
Proof.
  revert s. induction n as [|n IH]; intros s Hn; [by destruct s|].
  destruct s as [|a s]; simpl in Hn; [lia|].
  destruct (in_class c a) eqn:E; [|lia].
  destruct (IH s ltac:(lia)) as [Hlen Hall]. simpl.
  rewrite Hlen, E, Hall. auto.
Qed.

(** One step of the matcher: the first item consumes a text it accepts
    and the rest of the pattern matches what follows. *)
Lemma match_here_cons i r prev s gs after :
  match_here (i :: r) prev s = Some (gs, after) ->
  exists w rest gs',
    s = w ++ rest
    /\ atom_accepts (atom_of i) prev s w
    /\ match_here r (last_char prev w) rest = Some (gs', after)
    /\ gs = if captures i then w :: gs' else gs'.
Proof.
  assert (Hk : forall w rest,
    match match_here r (last_char prev w) rest with
    | Some (gs0, after0) =>
        Some (if captures i then w :: gs0 else gs0, after0)
    | None => None
    end = Some (gs, after) ->
    exists gs', match_here r (last_char prev w) rest = Some (gs', after)
                /\ gs = if captures i then w :: gs' else gs').
  { intros w rest H.
    destruct (match_here r _ rest) as [[gs0 after0]|]; [|discriminate].
    injection H as <- <-. eauto. }
  simpl. destruct (atom_of i) as [l|c least greedy|alts|].
  - destruct (strip_prefix l s) as [rest|] eqn:E; [|discriminate].
    intros H. destruct (Hk _ _ H) as (gs' & Hm & Hgs).
    exists l, rest, gs'. split; [by apply strip_prefix_Some|]. by repeat split.
  - intros H. apply first_some_Some in H as (n & Hn & H).
    apply in_candidates in Hn.
    destruct (Hk _ _ H) as (gs' & Hm & Hgs).
    destruct (take_within_run c n s ltac:(lia)) as [Hlen Hall].
    exists (str_take n s), (str_drop n s), gs'.
    split; [apply take_drop|]. split; [|by split].
    simpl. split; [lia | exact Hall].
  - intros H. apply first_some_Some in H as (a & Ha & H).
    destruct (strip_prefix a s) as [rest|] eqn:E; [|discriminate].
    destruct (Hk _ _ H) as (gs' & Hm & Hgs).
    exists a, rest, gs'. split; [by apply strip_prefix_Some|]. by repeat split.
  - destruct (at_boundary prev s) eqn:E; [|discriminate].
    intros H. destruct (Hk "" s H) as (gs' & Hm & Hgs).
    exists "", s, gs'. by repeat split.
Qed.

(** What [findall] lists are the groups of matches. *)
Lemma findall_from_sound r gs s :
  forall prev skip,
    gs ∈ findall_from r prev s skip ->
    exists prev' s' after, match_here r prev' s' = Some (gs, after).
Proof.
  induction s as [|a s IH]; intros prev skip H.
  - simpl in H. destruct skip; [|inversion H].
    destruct (match_here r prev "") as [[gs0 after]|] eqn:E;
      [|inversion H].
    apply list_elem_of_singleton in H as ->. eauto.
  - simpl in H. destruct skip as [|k]; [|eauto].
    destruct (match_here r prev (String a s)) as [[gs0 after]|] eqn:E;
      [|eauto].
    apply elem_of_cons in H as [->|H]; eauto.
Qed.

Lemma nonempty_of_length (w : string) : 1 <= String.length w -> w <> "".
Proof. destruct w; simpl; [lia | discriminate]. Qed.

End MatchFacts.

(** X10. The candidate names of the typo heuristic are non-empty and
    made of word characters only. *)
Theorem candidates_are_words :
  forall code_context var,
    var ∈ added_variables code_context ->
    var <> "" /\ string_forall is_word var = true.
Proof.
  intros ctx var H. unfold added_variables in H.
  apply list_elem_of_In, in_concat in H as (l & Hl & Hvar).
  apply in_map_iff in Hl as (line & <- & _).
  apply in_map_iff in Hvar as (gs & <- & Hgs).
  apply list_elem_of_In in Hgs.
  apply MatchFacts.findall_from_sound in Hgs as (prev & s & after & Hm).
  apply MatchFacts.match_here_cons in Hm
    as (w0 & s1 & gs1 & _ & _ & Hm & ->).
  apply MatchFacts.match_here_cons in Hm
    as (w & s2 & gs2 & _ & [Hlen Hall] & Hm & ->).
  apply MatchFacts.match_here_cons in Hm
    as (w3 & s3 & gs3 & _ & _ & Hm & ->).
  injection Hm as <- _. simpl.
  split; [by apply MatchFacts.nonempty_of_length | exact Hall].
Qed.

Lemma candidates_are_words_witness :
  "foob" <> "" /\ string_forall is_word "foob" = true.
Proof.
  apply (candidates_are_words foo_context "foob").
  vm_compute. set_solver.
Defined.

(** X11. What the out-of-range scan reads is well formed: a declaration
    gives exactly a name made of word characters and a bracket text
    without line break, and a subscript is a non-empty string of decimal
    digits. *)
Theorem scan_reads_names_and_digits :
  forall code_context,
    (forall m,
       m ∈ findall list_pattern code_context ->
       exists name content,
         m = [name; content]
         /\ name <> ""
         /\ string_forall is_word name = true
         /\ string_forall (fun a => negb (Ascii.eqb a newline)) content
            = true)
    /\ (forall name idx,
          idx ∈ index_matches name code_context ->
          idx <> "" /\ string_forall is_digit idx = true).
Proof.
  intros ctx. split.
  - intros m H.
    apply MatchFacts.findall_from_sound in H as (prev & s & after & Hm).
    apply MatchFacts.match_here_cons in Hm
      as (name & s1 & gs1 & _ & [Hlen Hall] & Hm & ->).
    do 4 (apply MatchFacts.match_here_cons in Hm
            as (? & ? & ? & _ & _ & Hm & ->)).
    apply MatchFacts.match_here_cons in Hm
      as (content & s6 & gs6 & _ & [_ Hline] & Hm & ->).
    apply MatchFacts.match_here_cons in Hm
      as (? & ? & ? & _ & _ & Hm & ->).
    injection Hm as <- _. simpl.
    exists name, content. split; [reflexivity|].
    split; [by apply MatchFacts.nonempty_of_length|]. by split.
  - intros name idx H. unfold index_matches in H.
    apply list_elem_of_In, in_map_iff in H as (gs & <- & Hgs).
    apply list_elem_of_In in Hgs.
    apply MatchFacts.findall_from_sound in Hgs as (prev & s & after & Hm).
    do 2 (apply MatchFacts.match_here_cons in Hm
            as (? & ? & ? & _ & _ & Hm & ->)).
    apply MatchFacts.match_here_cons in Hm
      as (idx & s3 & gs3 & _ & [Hlen Hall] & Hm & ->).
    apply MatchFacts.match_here_cons in Hm
      as (? & ? & ? & _ & _ & Hm & ->).
    injection Hm as <- _. simpl.
    split; [by apply MatchFacts.nonempty_of_length | exact Hall].
Qed.

Lemma scan_reads_names_and_digits_witness :
  "3" <> "" /\ string_forall is_digit "3" = true.
Proof.
  apply (proj2 (scan_reads_names_and_digits my_list_context) "my_list" "3").
  vm_compute. set_solver.
Defined.

(** ** Which subscript is named *)





(** ** The solutions of a matched request, without enrichment *)

(** X13. Without a snippet (absent or empty), or for an error type other
    than [NameError] and [IndexError], the response to a request that
    matches a catalog entry has exactly the solutions of the entry. *)
Theorem plain_solutions_without_enrichment :
  forall set_order json_loads str_field float_field w h error_input
         label info,
    first_match ERROR_PATTERNS (error_message error_input)
      = Some (label, info) ->
    truthy (code_context error_input) = false
    \/ (label <> "NameError" /\ label <> "IndexError") ->
    exists r,
      (analyze_error set_order json_loads str_field float_field
                     w h error_input).1 = inr r
      /\ solutions r = pat_solutions info.
Proof.
  intros so jl sf ff w h inp label info Hfm Hplain.
  rewrite (handle_matched so jl sf ff w h inp label info Hfm).
  pose proof (augment_keeps jl sf w h inp label
                (matched_solutions so inp label info)
                (pat_concepts info)) as (_ & Hs & _).
  destruct (analyze_with_gemini _ _ _ _ _ _ _ _) as [r h']. simpl in Hs.
  exists r. split; [reflexivity|]. rewrite Hs.
  unfold matched_solutions, analyze_code_context.
  destruct (code_context inp) as [[|a ctx]|]; try reflexivity.
  destruct Hplain as [Hctx|[Hn Hi]]; [discriminate|].
  apply String.eqb_neq in Hn, Hi. rewrite Hn, Hi. reflexivity.
Qed.

Lemma plain_solutions_without_enrichment_witness :
  exists r,
    (analyze_error insertion_order no_json strict_str strict_float
       (offline "2025-01-01T10:00:00") ∅
       (request "KeyError: 'k'" (Some "d = {}") None)).1 = inr r
    /\ solutions r
       = [ {| fix_ := "Check if the key exists before accessing it";
              explanation := "This error occurs when you try to access a dictionary with a key that doesn't exist.";
              confidence := 0.9;
              code_example := KeyError_example |} ].
Proof.
  apply (plain_solutions_without_enrichment insertion_order no_json
           strict_str strict_float (offline "2025-01-01T10:00:00") ∅
           (request "KeyError: 'k'" (Some "d = {}") None) "KeyError"
           {| pat_pattern := [N (Lit "KeyError: '"); G word_plus; N (Lit "'")];
              pat_solutions :=
                [ {| fix_ := "Check if the key exists before accessing it";
                     explanation := "This error occurs when you try to access a dictionary with a key that doesn't exist.";
                     confidence := 0.9;
                     code_example := KeyError_example |} ];
              pat_concepts :=
                ["dictionaries"; "key validation"; "default values"] |}).
  - vm_compute. reflexivity.
  - right. split; discriminate.
Defined.

(** ** Reading the undefined name *)

Module NameFacts.
Import ReFacts TextFacts MatchFacts.

Lemma run_until_quote v rest :
  string_forall is_word v = true ->
  run CWord (v ++ "'" ++ rest) = String.length v.
Proof.
  induction v as [|a v IH]; intros H; [reflexivity|].
  simpl in H. apply andb_prop in H as [Ha Hv].
  rewrite append_cons. simpl. rewrite Ha. f_equal. by apply IH.
Qed.

Lemma str_take_all (v t : string) : str_take (String.length v) (v ++ t) = v.
Proof.
  induction v as [|a v IH]; [by destruct t|].
  rewrite append_cons. simpl. by rewrite IH.
Qed.

Lemma str_drop_all (v t : string) : str_drop (String.length v) (v ++ t) = t.
Proof. induction v as [|a v IH]; [reflexivity | exact IH]. Qed.

Lemma greedy_candidates_head least k :
  least <= S k ->
  exists others, candidates least (S k) true = S k :: others.
Proof.
  intros Hle. unfold candidates.
  replace (S (S k) - least) with (S (S k - least)) by lia.
  rewrite seq_S, rev_unit.
  replace (least + (S k - least)) with (S k) by lia. eauto.
Qed.

(** The pattern of the undefined name, matched at the start of a message
    of the interpreter. *)
Lemma match_undefined_name prev v after :
  v <> "" -> string_forall is_word v = true ->
  match_here undefined_var_pattern prev
             ("name '" ++ v ++ "' is not defined" ++ after)
  = Some ([v], after).
Proof.
  intros Hne Hword.
  assert (Hrun : run CWord (v ++ "' is not defined" ++ after)
                 = String.length v)
    by exact (run_until_quote v (" is not defined" ++ after) Hword).
  assert (Hlast : match_here [N (Lit "' is not defined")]
                    (last_char (last_char prev "name '") v)
                    ("' is not defined" ++ after) = Some ([], after)).
  { change (match strip_prefix "' is not defined"
                    ("' is not defined" ++ after) with
            | Some rest => Some (@nil string, rest)
            | None => None
            end = Some ([], after)).
    by rewrite strip_prefix_self. }
  assert (Hmid : match_here [G word_plus; N (Lit "' is not defined")]
                   (last_char prev "name '")
                   (v ++ "' is not defined" ++ after) = Some ([v], after)).
  { change (first_some
              (fun n =>
                 match match_here [N (Lit "' is not defined")]
                         (last_char (last_char prev "name '")
                            (str_take n (v ++ "' is not defined" ++ after)))
                         (str_drop n (v ++ "' is not defined" ++ after)) with
                 | Some (gs, rem) =>
                     Some (str_take n (v ++ "' is not defined" ++ after)
                           :: gs, rem)
                 | None => None
                 end)
              (candidates 1 (run CWord (v ++ "' is not defined" ++ after))
                          true)
            = Some ([v], after)).
    rewrite Hrun. destruct v as [|a v]; [done|].
    destruct (greedy_candidates_head 1 (String.length v) ltac:(lia))
      as [others Hc].
    change (String.length (String a v)) with (S (String.length v)).
    rewrite Hc.
    match goal with
    | |- first_some ?f (?x :: ?l) = _ =>
        change (match f x with
                | Some y => Some y
                | None => first_some f l
                end = Some ([String a v], after))
    end.
    cbv beta.
    change (S (String.length v)) with (String.length (String a v)).
    rewrite str_take_all, str_drop_all, Hlast. reflexivity. }
  unfold undefined_var_pattern.
  change (match strip_prefix "name '"
                  ("name '" ++ v ++ "' is not defined" ++ after) with
          | Some rest =>
              match match_here [G word_plus; N (Lit "' is not defined")]
                      (last_char prev "name '") rest with
              | Some (gs, rem) => Some (gs, rem)
              | None => None
              end
          | None => None
          end = Some ([v], after)).
  by rewrite strip_prefix_self, Hmid.
Qed.

Lemma search_from_here r prev s gs after :
  match_here r prev s = Some (gs, after) -> search_from r prev s = Some gs.
Proof. intros H. destruct s; simpl; by rewrite H. Qed.

End NameFacts.

(** X14. A message of the interpreter about an undefined name, whatever
    follows it, is classified [NameError], and the name the heuristic
    reads from it is exactly the quoted name. *)
Theorem undefined_name_is_read_back :
  forall v after,
    v <> "" ->
    string_forall is_word v = true ->
    let message := "name '" ++ v ++ "' is not defined" ++ after in
    group1 <$> search undefined_var_pattern message = Some v
    /\ exists info,
         first_match ERROR_PATTERNS message = Some ("NameError", info).
Proof.
  intros v after Hne Hword message.
  pose proof (NameFacts.match_undefined_name None v after Hne Hword) as Hm.
  fold message in Hm.
  assert (Hs : search undefined_var_pattern message = Some [v]).
  { exact (NameFacts.search_from_here _ _ _ _ _ Hm). }
  split; [by rewrite Hs|].
  eexists. apply (first_match_lookup ERROR_PATTERNS message 0).
  - reflexivity.
  - change (is_Some (search undefined_var_pattern message)).
    rewrite Hs. eauto.
  - intros j e Hj. lia.
Qed.

Lemma undefined_name_is_read_back_witness :
  let message := "name '" ++ "total_2" ++ "' is not defined" ++ "" in
  group1 <$> search undefined_var_pattern message = Some "total_2"
  /\ exists info,
       first_match ERROR_PATTERNS message = Some ("NameError", info).
Proof.
  apply (undefined_name_is_read_back "total_2" "").
  - discriminate.
  - vm_compute. reflexivity.
Defined.

(** ** The unmatched path *)

(** X15. When no catalog pattern is found and the service replies with a
    JSON object that has none of the keys [error_type], [solutions] and
    [concepts], the request succeeds with the label "Unknown Error", no
    solution and no concept. *)
Theorem classification_defaults :
  forall set_order json_loads str_field float_field w h error_input
         content text fields,
    first_match ERROR_PATTERNS (error_message error_input) = None ->
    setup_gemini w = Some tt ->
    generate_content w
      (ClassifyPrompt (error_message error_input)
         (if truthy (code_context error_input)
          then code_context error_input else None)) = Some content ->
    extract_json content = Some text ->
    json_loads text = Some (JObj fields) ->
    dict_get fields "error_type" = None ->
    dict_get fields "solutions" = None ->
    dict_get fields "concepts" = None ->
    str_field (JStr "Unknown Error") = Some "Unknown Error" ->
    exists r,
      (analyze_error set_order json_loads str_field float_field
                     w h error_input).1 = inr r
      /\ error_type r = "Unknown Error"
      /\ solutions r = []
      /\ concepts r = [].
Proof.
  intros so jl sf ff w h inp content text fields
         Hfm Hsetup Hgen Htext Hjson He Hs Hc Hstr.
  rewrite (handle_unmatched so jl sf ff w h inp Hfm).
  assert (Hcl : classification jl sf ff w inp
                = Some ("Unknown Error", [], [])).
  { unfold classification. rewrite Hsetup. simpl. rewrite Hgen. simpl.
    rewrite Htext. simpl. rewrite Hjson. simpl.
    rewrite He, Hs, Hc. simpl. rewrite Hstr. reflexivity. }
  rewrite Hcl.
  pose proof (augment_keeps jl sf w h inp "Unknown Error" [] [])
    as (Ht & Hsol & Hcon).
  destruct (analyze_with_gemini _ _ _ _ _ _ _ _) as [r h'].
  exists r. split; [reflexivity|]. auto.
Qed.

Lemma classification_defaults_witness :
  exists r,
    (analyze_error insertion_order bare_json strict_str strict_float
       (vague "2025-01-01T10:00:00") ∅
       (request "segmentation fault" None None)).1 = inr r
    /\ error_type r = "Unknown Error"
    /\ solutions r = []
    /\ concepts r = [].
Proof.
  apply (classification_defaults insertion_order bare_json strict_str
           strict_float (vague "2025-01-01T10:00:00") ∅
           (request "segmentation fault" None None)
           "{vague}" "{vague}" [("note", JStr "no idea")]);
    vm_compute; reflexivity.
Defined.

(** ** Messages inside a longer text *)

(** X16. A message in which a catalog pattern is found is still
    recognised when text is added before and after it (a traceback, a
    prompt line): the request does not fail. The label may become that
    of an earlier entry of the table, not of a later one. *)
Theorem recognized_inside_longer_text :
  forall set_order json_loads str_field float_field w h error_input
         longer before after i label info,
    ERROR_PATTERNS !! i = Some (label, info) ->
    first_match ERROR_PATTERNS (error_message error_input)
      = Some (label, info) ->
    error_message longer = before ++ error_message error_input ++ after ->
    exists r j label' info',
      (analyze_error set_order json_loads str_field float_field
                     w h longer).1 = inr r
      /\ error_type r = label'
      /\ ERROR_PATTERNS !! j = Some (label', info')
      /\ j <= i.
Proof.
  intros so jl sf ff w h inp longer before after i label info
         Hi Hfm Hlonger.
  apply first_match_Some in Hfm as [Hin Hfound].
  assert (Hstill : is_Some (search (pat_pattern info)
                                   (error_message longer))).
  { rewrite Hlonger. apply ReFacts.search_unanchored; [|exact Hfound].
    eapply catalog_has_no_boundary, Hin. }
  assert (Hex : exists j label' info',
    j <= i /\ ERROR_PATTERNS !! j = Some (label', info')
    /\ first_match ERROR_PATTERNS (error_message longer)
       = Some (label', info')).
  { clear Hin Hfound Hlonger. revert i Hi.
    generalize ERROR_PATTERNS as entries.
    induction entries as [|[t e] rest IH]; intros i Hi; [discriminate|].
    simpl. destruct (search (pat_pattern e) (error_message longer))
      as [gs|] eqn:E.
    - exists 0, t, e. split; [lia|]. split; reflexivity.
    - destruct i as [|i].
      + injection Hi as -> ->. rewrite E in Hstill.
        destruct Hstill; discriminate.
      + destruct (IH i Hi) as (j & label' & info' & Hj & Hl & Hf).
        exists (S j), label', info'. split; [lia|]. split; assumption. }
  destruct Hex as (j & label' & info' & Hj & Hl & Hf).
  rewrite (handle_matched so jl sf ff w h longer label' info' Hf).
  pose proof (augment_keeps jl sf w h longer label'
                (matched_solutions so longer label' info')
                (pat_concepts info')) as (Ht & _).
  destruct (analyze_with_gemini _ _ _ _ _ _ _ _) as [r h'].
  exists r, j, label', info'. split; [reflexivity|]. auto.
Qed.

Lemma recognized_inside_longer_text_witness :
  exists r j label' info',
    (analyze_error insertion_order no_json strict_str strict_float
       (offline "2025-01-01T10:00:00") ∅
       (request ("Traceback (most recent call last):" ++ nl
                 ++ "IndexError: list index out of range" ++ nl)
                None None)).1 = inr r
    /\ error_type r = label'
    /\ ERROR_PATTERNS !! j = Some (label', info')
    /\ j <= 2.
Proof.
  eapply (recognized_inside_longer_text insertion_order no_json strict_str
            strict_float (offline "2025-01-01T10:00:00") ∅
            (request "IndexError: list index out of range" None None)
            (request ("Traceback (most recent call last):" ++ nl
                      ++ "IndexError: list index out of range" ++ nl)
                     None None)
            ("Traceback (most recent call last):" ++ nl) nl 2 "IndexError").
  - reflexivity.
  - vm_compute. reflexivity.
  - vm_compute. reflexivity.
Defined.

(** ** The table *)

(** X17. The labels of the catalog are distinct and no entry is hidden
    by an earlier one: for each entry there is a message on which the
    scan stops at that entry. *)
Theorem every_entry_is_reachable :
  NoDup (map fst ERROR_PATTERNS)
  /\ forall i label info,
       ERROR_PATTERNS !! i = Some (label, info) ->
       exists message,
         sample_messages !! i = Some message
         /\ first_match ERROR_PATTERNS message = Some (label, info).
Proof.
  split.
  - apply (bool_decide_unpack _). vm_compute. exact I.
  - intros i label info Hi.
    do 10 (destruct i as [|i];
           [injection Hi as <- <-; eexists; split;
              [reflexivity | vm_compute; reflexivity]|]).
    discriminate.
Qed.

Lemma every_entry_is_reachable_witness :
  exists message,
    sample_messages !! 5 = Some message
    /\ first_match ERROR_PATTERNS message
       = Some ("IndentationError",
               {| pat_pattern :=
                    [N (Lit "IndentationError: ");
                     G (Alt ["unexpected indent";
                             "expected an indented block"])];
                  pat_solutions :=
                    [ {| fix_ := "Fix your code's indentation";
                         explanation := "This error occurs when your code has inconsistent indentation.";
                         confidence := 0.9;
                         code_example := IndentationError_example |} ];
                  pat_concepts :=
                    ["indentation"; "code blocks"; "Python syntax"] |}).
Proof.
  apply (proj2 every_entry_is_reachable 5 "IndentationError").
  reflexivity.
Defined.

(** ** A sequence of requests *)

(** X18. After a sequence of requests served by configured processes,
    each matching a catalog entry, the records of a project and error
    type are the records there were followed by one record per request
    for that project whose message matched that error type, in the order
    of the requests, each with the clock reading, message and snippet of
    its request. *)
Theorem history_lists_the_requests :
  forall set_order json_loads str_field float_field requests h p e,
    p <> "" ->
    (forall req, req ∈ requests ->
       setup_gemini req.1 = Some tt
       /\ is_Some (first_match ERROR_PATTERNS (error_message req.2))) ->
    records_of (serve_all set_order json_loads str_field float_field
                          h requests) p e
    = (records_of h p e
       ++ map record_of (List.filter (concerns p e) requests))%list.
Proof.
  intros so jl sf ff requests h p e Hp. revert h.
  induction requests as [|req reqs IH]; intros h Hall.
  - simpl. by rewrite app_nil_r.
  - change (serve_all so jl sf ff h (req :: reqs))
      with (serve_all so jl sf ff
              (analyze_error so jl sf ff req.1 h req.2).2 reqs).
    rewrite IH by (intros r Hr; apply Hall; by right).
    destruct (Hall req ltac:(left)) as [Hsetup [[label info] Hfm]].
    rewrite (matched_history so jl sf ff req.1 h req.2 label info Hfm).
    unfold setup_gemini in Hsetup.
    destruct (truthy (GEMINI_API_KEY req.1)); [|discriminate]. simpl andb.
    change (List.filter (concerns p e) (req :: reqs))
      with (if concerns p e req
            then req :: List.filter (concerns p e) reqs
            else List.filter (concerns p e) reqs).
    assert (Hc : concerns p e req
                 = match project_id req.2 with
                   | Some q => String.eqb q p && String.eqb label e
                   | None => false
                   end)
      by (unfold concerns; by rewrite Hfm).
    rewrite Hc. clear Hc.
    destruct (project_id req.2) as [[|a q]|] eqn:Hq.
    + simpl truthy. cbv iota.
      destruct (String.eqb_spec "" p) as [<-|_]; [done | reflexivity].
    + simpl truthy. cbv iota. simpl default.
      destruct (String.eqb_spec (String a q) p) as [<-|Hne];
        [destruct (String.eqb_spec label e) as [<-|Hne]|]; simpl andb;
        cbv iota.
      * rewrite records_after_record_error, <- app_assoc. reflexivity.
      * rewrite records_elsewhere by (right; congruence). reflexivity.
      * rewrite records_elsewhere by (left; congruence). reflexivity.
    + reflexivity.
Qed.

Lemma history_lists_the_requests_witness :
  records_of
    (serve_all insertion_order no_json strict_str strict_float ∅
       [ (offline "2025-01-01T10:00:00",
          request "list index out of range" None (Some "shop"));
         (offline "2025-01-01T10:00:01",
          request "KeyError: 'k'" None (Some "shop"));
         (offline "2025-01-01T10:00:02",
          request "list index out of range" (Some "xs = []") (Some "shop")) ])
    "shop" "IndexError"
  = (records_of (∅ : History) "shop" "IndexError"
     ++ map record_of
          (List.filter (concerns "shop" "IndexError")
             [ (offline "2025-01-01T10:00:00",
                request "list index out of range" None (Some "shop"));
               (offline "2025-01-01T10:00:01",
                request "KeyError: 'k'" None (Some "shop"));
               (offline "2025-01-01T10:00:02",
                request "list index out of range" (Some "xs = []")
                        (Some "shop")) ]))%list.
Proof.
  apply (history_lists_the_requests insertion_order no_json strict_str
           strict_float).
  - discriminate.
  - intros req Hreq.
    repeat (apply elem_of_cons in Hreq as [->|Hreq];
            [split; [reflexivity | vm_compute; eauto]|]).
    inversion Hreq.
Defined.

(** ** The iteration order of the set *)

Lemma reverse_order_iterates : iterates_set reverse_order.
Proof.
  intros l. unfold reverse_order. split.
  - apply NoDup_ListNoDup, List.NoDup_rev, NoDup_ListNoDup,
      NoDup_remove_dups.
  - intros x. rewrite list_elem_of_In, <- in_rev, <- list_elem_of_In.
    apply elem_of_remove_dups.
Qed.

Lemma NoDup_list_filter {A} (f : A -> bool) (l : list A) :
  NoDup l -> NoDup (List.filter f l).
Proof.
  intros H. apply NoDup_ListNoDup, List.NoDup_filter, NoDup_ListNoDup, H.
Qed.

(** X19. The iteration order of the set of words decides only the order
    of the suggested names: for any two orders the suggested names are
    the same up to their order and without repetition, and the analysis
    names the same issue. *)
Theorem suggestions_up_to_order :
  forall set_order set_order' message context,
    iterates_set set_order ->
    iterates_set set_order' ->
    (forall undefined_var,
       NoDup (similar_to set_order undefined_var context)
       /\ similar_to set_order undefined_var context
          ≡ₚ similar_to set_order' undefined_var context)
    /\ specific_issue (name_analysis set_order message context)
       = specific_issue (name_analysis set_order' message context).
Proof.
  intros so so' message context Hso Hso'.
  assert (Hperm : forall u,
    NoDup (similar_to so u context)
    /\ similar_to so u context ≡ₚ similar_to so' u context).
  { intros u. split.
    - apply NoDup_list_filter, Hso.
    - apply NoDup_Permutation.
      + apply NoDup_list_filter, Hso.
      + apply NoDup_list_filter, Hso'.
      + intros x. by rewrite !similar_to_spec. }
  split; [exact Hperm|]. unfold name_analysis.
  destruct (search undefined_var_pattern message) as [gs|]; [|reflexivity].
  cbv zeta. destruct (Hperm (group1 gs)) as [_ Hp].
  destruct (similar_to so (group1 gs) context) as [|x l];
    destruct (similar_to so' (group1 gs) context) as [|x' l'];
    try reflexivity.
  - apply Permutation_nil_l in Hp. discriminate.
  - apply Permutation_nil_r in Hp. discriminate.
Qed.

Lemma suggestions_up_to_order_witness :
  (forall undefined_var,
     NoDup (similar_to insertion_order undefined_var foo_context)
     /\ similar_to insertion_order undefined_var foo_context
        ≡ₚ similar_to reverse_order undefined_var foo_context)
  /\ specific_issue (name_analysis insertion_order foo_message foo_context)
     = specific_issue (name_analysis reverse_order foo_message foo_context).
Proof.
  exact (suggestions_up_to_order insertion_order reverse_order foo_message
           foo_context insertion_order_iterates reverse_order_iterates).
Defined.

(** ** All or nothing for the learning resources *)

(** X20. The learning resources are all from the service or all
    fallback. When the reply decodes to an array whose first three items
    are valid, they are the resources, whatever comes after the third;
    when one of the first three items is refused, the three fallback
    resources are returned and none from the service. *)
Theorem resources_all_or_nothing :
  forall json_loads str_field w label topics content text items,
    generate_content w (ResourcesPrompt label (str_join ", " topics))
      = Some content ->
    extract_json content = Some text ->
    json_loads text = Some (JArr items) ->
    (forall resources,
       mapM (LearningResource_of str_field) (firstn 3 items)
         = Some resources ->
       get_learning_resources json_loads str_field w label topics
       = resources)
    /\ (forall i item,
          items !! i = Some item -> i < 3 ->
          LearningResource_of str_field item = None ->
          get_learning_resources json_loads str_field w label topics
          = fallback_resources label topics).
Proof.
  intros jl sf w label topics content text items Hgen Htext Hjson.
  assert (Hreq : requested_resources jl sf w label topics
                 = mapM (LearningResource_of sf) (firstn 3 items)).
  { unfold requested_resources. rewrite Hgen. simpl. rewrite Htext. simpl.
    rewrite Hjson. reflexivity. }
  unfold get_learning_resources. rewrite Hreq. split.
  - intros resources ->. reflexivity.
  - intros i item Hi Hlt Hnone.
    assert (Hfail : mapM (LearningResource_of sf) (firstn 3 items) = None).
    { apply mapM_None_2, Exists_exists. exists item. split; [|exact Hnone].
      apply elem_of_take. eauto. }
    by rewrite Hfail.
Qed.

Lemma resources_all_or_nothing_witness :
  get_learning_resources listing_json strict_str
    (tutoring "2025-01-01T10:00:00") "KeyError" ["dictionaries"]
  = [ {| title := "One"; description := "A walk through the error";
         url := None; resource_type := "article" |};
      {| title := "Two"; description := "A walk through the error";
         url := None; resource_type := "article" |};
      {| title := "Three"; description := "A walk through the error";
         url := None; resource_type := "article" |} ].
Proof.
  apply (proj1 (resources_all_or_nothing listing_json strict_str
                  (tutoring "2025-01-01T10:00:00") "KeyError"
                  ["dictionaries"] "[listing]" "[listing]"
                  [ sample_resource "One"; sample_resource "Two";
                    sample_resource "Three"; JNull ]
                  eq_refl eq_refl eq_refl)).
  reflexivity.
Defined.

(** ** What a matched request asks the service *)

(** X21. A request that matches a catalog entry never asks the service
    to classify it: two processes with the same credential and clock
    reading whose services agree on the prompts for learning resources
    and for insights answer it alike and store the same history. *)
Theorem matched_request_is_not_classified :
  forall set_order json_loads str_field float_field w w' h error_input,
    is_Some (first_match ERROR_PATTERNS (error_message error_input)) ->
    GEMINI_API_KEY w = GEMINI_API_KEY w' ->
    now_isoformat w = now_isoformat w' ->
    (forall p,
       match p with ClassifyPrompt _ _ => True
       | _ => generate_content w p = generate_content w' p end) ->
    analyze_error set_order json_loads str_field float_field
                  w h error_input
    = analyze_error set_order json_loads str_field float_field
                    w' h error_input.
Proof.
  intros so jl sf ff w w' h inp [[label info] Hfm] Hkey Hnow Hsame.
  rewrite !(handle_matched so jl sf ff _ h inp label info Hfm).
  unfold analyze_with_gemini, setup_gemini. rewrite Hkey.
  destruct (truthy (GEMINI_API_KEY w')); [|reflexivity].
  assert (Hres : get_learning_resources jl sf w label (pat_concepts info)
                 = get_learning_resources jl sf w' label (pat_concepts info)).
  { unfold get_learning_resources, requested_resources.
    by rewrite (Hsame (ResourcesPrompt label
                         (str_join ", " (pat_concepts info)))). }
  assert (Hstat : analyze_error_patterns jl w h label (error_message inp)
                    (code_context inp) (project_id inp)
                  = analyze_error_patterns jl w' h label (error_message inp)
                      (code_context inp) (project_id inp)).
  { destruct (project_id inp) as [[|a q]|]; try reflexivity.
    apply (statistics_depend_on_one_prompt jl w w' h label
             (error_message inp) (code_context inp) (String a q) Hnow).
    apply (Hsame (PatternsPrompt _ _ _)). }
  by rewrite Hres, Hstat.
Qed.

Lemma matched_request_is_not_classified_witness :
  analyze_error insertion_order sample_json strict_str strict_float
    (offline "2025-01-01T10:00:00") ∅
    (request "list index out of range" None (Some "shop"))
  = analyze_error insertion_order sample_json strict_str strict_float
      (classifying "2025-01-01T10:00:00") ∅
      (request "list index out of range" None (Some "shop")).
Proof.
  apply (matched_request_is_not_classified insertion_order sample_json
           strict_str strict_float (offline "2025-01-01T10:00:00")
           (classifying "2025-01-01T10:00:00") ∅
           (request "list index out of range" None (Some "shop"))).
  - vm_compute. eauto.
  - reflexivity.
  - reflexivity.
  - intros p. destruct p; [reflexivity | reflexivity | exact I].
Defined.

(** ** Where the bracket text ends *)

Module LazyFacts.
Import ReFacts MatchFacts.

Lemma first_some_seq_least {B} (f : nat -> option B) len :
  forall a y,
    first_some f (seq a len) = Some y ->
    exists n, a <= n < a + len
              /\ f n = Some y
              /\ forall k, a <= k < n -> f k = None.
Proof.
  induction len as [|len IH]; intros a y H; [discriminate|].
  simpl in H. destruct (f a) as [z|] eqn:E.
  - injection H as <-. exists a. split; [lia|]. split; [exact E|].
    intros k Hk. lia.
  - destruct (IH (S a) y H) as (n & Hn & Hfn & Hleast).
    exists n. split; [lia|]. split; [exact Hfn|].
    intros k Hk. destruct (decide (k = a)) as [->|]; [exact E|].
    apply Hleast. lia.
Qed.

Lemma no_bracket_before n :
  forall s,
    (forall k, k < n -> strip_prefix "]" (str_drop k s) = None) ->
    string_forall (fun a => negb (Ascii.eqb "]" a)) (str_take n s) = true.
Proof.
  induction n as [|n IH]; intros s H; [by destruct s|].
  destruct s as [|a s]; [reflexivity|].
  change (negb (Ascii.eqb "]" a)
          && string_forall (fun a => negb (Ascii.eqb "]" a)) (str_take n s)
          = true).
  apply andb_true_intro. split.
  - pose proof (H 0 ltac:(lia)) as H0.
    change (strip_prefix "]" (str_drop 0 (String a s)))
      with (if Ascii.eqb "]" a then Some s else None) in H0.
    destruct (Ascii.eqb "]" a); [discriminate | reflexivity].
  - apply IH. intros k Hk. exact (H (S k) ltac:(lia)).
Qed.

(** The lazy repetition before the closing bracket stops at the first
    closing bracket. *)
Lemma lazy_until_bracket prev s gs after :
  match_here [G any_lazy; N (Lit "]")] prev s = Some (gs, after) ->
  exists content,
    gs = [content]
    /\ string_forall (fun a => negb (Ascii.eqb "]" a)) content = true.
Proof.
  change (match_here [G any_lazy; N (Lit "]")] prev s)
    with (first_some
            (fun n =>
               match
                 match strip_prefix "]" (str_drop n s) with
                 | Some rest => Some (@nil string, rest)
                 | None => None
                 end
               with
               | Some (gs0, rem) => Some (str_take n s :: gs0, rem)
               | None => None
               end)
            (seq 0 (S (run CDot s) - 0))).
  intros H. apply first_some_seq_least in H as (n & _ & Hn & Hleast).
  destruct (strip_prefix "]" (str_drop n s)) as [rest|]; [|discriminate].
  injection Hn as <- <-. exists (str_take n s). split; [reflexivity|].
  apply no_bracket_before. intros k Hk.
  specialize (Hleast k ltac:(lia)).
  destruct (strip_prefix "]" (str_drop k s)); [discriminate | reflexivity].
Qed.

End LazyFacts.

(** X22. The bracket text read from a declaration never holds a closing
    bracket: it ends at the first one after the opening bracket, so that
    the literal of a list of lists is cut inside its first item. *)
Theorem bracket_text_ends_at_first_bracket :
  forall code_context name content,
    [name; content] ∈ findall list_pattern code_context ->
    string_forall (fun a => negb (Ascii.eqb "]" a)) content = true.
Proof.
  intros ctx name content H.
  apply MatchFacts.findall_from_sound in H as (prev & s & after & Hm).
  unfold list_pattern in Hm.
  apply MatchFacts.match_here_cons in Hm
    as (name0 & s1 & gs1 & _ & _ & Hm & Hgs).
  do 4 (apply MatchFacts.match_here_cons in Hm
          as (? & ? & ? & _ & _ & Hm & ->)).
  apply LazyFacts.lazy_until_bracket in Hm as (c & -> & Hc).
  simpl in Hgs. injection Hgs as _ ->. exact Hc.
Qed.

Lemma bracket_text_ends_at_first_bracket_witness :
  string_forall (fun a => negb (Ascii.eqb "]" a)) "[1, 2" = true.
Proof.
  apply (bracket_text_ends_at_first_bracket "m = [[1, 2], [3]]" "m" "[1, 2").
  vm_compute. set_solver.
Defined.
